(** * spateo-viewer (stviewer): actor trees, asset manager, AnnData
      preprocessing and the morphogenesis stage loop

    A shallow embedding of the repository's own Python code:
    - [stviewer/pv_pipeline/pv_actors.py]        (module [PvActors]),
    - [stviewer/assets/dataset_manager.py]       (module [DatasetManager]),
    - [stviewer/assets/anndata_preprocess.py]    (module [AnndataPreprocess]),
    - [stviewer/static_viewer/pv_pipeline/pv_morphogenesis.py]
                                                 (module [PvMorphogenesis]).

    Python dictionaries are stdpp [gmap]s, Python lists are [list]s,
    [Optional] arguments are [option]s, and a call that may raise is a
    value of [Py.result]: [inl e] for a raised exception [e], [inr v] for a
    normal return. Calls into third-party packages (trame, pathlib, scipy,
    dynamo, spateo) and into the parts of the package that are not here
    are the fields of a class ([Viewer], [Host], [Dynamo], [Disk],
    [Libraries]) of the module that uses them. Objects that the code
    changes in place and shares (the VTK actors) are read through the
    flags written to them. *)

From Stdlib Require Import QArith_base Reals Lra.
From stdpp Require Import gmap strings list pretty sorting.

Open Scope string_scope.
Open Scope list_scope.
Open Scope nat_scope.

(** ** Python exceptions and the result monad *)

Module Py.

(** The places where the interpreter raises a [TypeError] in this code. *)
Inductive type_error :=
  | NotIterable          (* iterating over None: enumerate(None) *)
  | UnsupportedOperand   (* None + x *)
  | CanOnlyConcatenate   (* [..] + None *)
  | BadPathArgument.     (* Path(None) *)

Inductive exception :=
  | TypeError (what : type_error)
  | KeyError (key : string)
  | ValueError (msg : string)
  | ImportError (msg : string)
  | IndexError
  | AttributeError (attr : string)
  | OSError (path : string)
  | LibraryError (msg : string).   (* anything else a library raises *)

Definition result (A : Type) : Type := exception + A.

Definition ret {A} (a : A) : result A := inr a.
Definition raise {A} (e : exception) : result A := inl e.

Definition bind {A B} (m : result A) (k : A → result B) : result B :=
  match m with
  | inl e => inl e
  | inr a => k a
  end.

(** [xs + ys] on two values that are each a list or None. *)
Definition add {A} (xs ys : option (list A)) : result (list A) :=
  match xs, ys with
  | Some l1, Some l2 => ret (l1 ++ l2)
  | Some _, None => raise (TypeError CanOnlyConcatenate)
  | None, _ => raise (TypeError UnsupportedOperand)
  end.

(** [d[key]] on a dict: the value, or KeyError. *)
Definition getitem {V} (d : gmap string V) (key : string) : result V :=
  match d !! key with
  | Some v => ret v
  | None => raise (KeyError key)
  end.

(** [str(n)] for a non-negative int: its decimal numeral. *)
Definition str (n : nat) : string := pretty n.

(** Monadic map over a list, left to right, stopping at the first raise. *)
Fixpoint mapM {A B} (f : A → result B) (l : list A) : result (list B) :=
  match l with
  | [] => ret []
  | a :: l' =>
      bind (f a) (λ b, bind (mapM f l') (λ bs, ret (b :: bs)))
  end.

End Py.

Notation "x <- m ;; k" := (Py.bind m (λ x, k))
  (at level 100, m at next level, right associativity, only parsing).

(** ** pv_actors.py *)

Module PvActors.
Import Py.

(** A reference to a VTK actor: the object it names ([actor_key]) and the
    visibility read through it when the call starts. Two references with
    one key are one object. *)
Record actor := Actor { actor_key : nat; GetVisibility : bool }.

(** [actor.SetVisibility(v)] writes the flag of the object itself. [flags]
    holds the flags written so far, by object. *)
Definition SetVisibility (a : actor) (v : bool) (flags : gmap nat bool)
    : gmap nat bool :=
  <[actor_key a := v]> flags.

(** A reference as it reads once [flags] are written. *)
Definition seen (flags : gmap nat bool) (a : actor) : actor :=
  {| actor_key := actor_key a;
     GetVisibility := default (GetVisibility a) (flags !! actor_key a) |}.

(** One dict of the outliner tree. *)
Record tree_entry := TreeEntry {
  id : string;
  parent : string;
  visible : bool;
  name : string
}.

(** The first loop of [standard_tree], [for i, actor in enumerate(actors)],
    from index [i] on. *)
Fixpoint set_visibilities (i : nat) (actors : list actor)
    (flags : gmap nat bool) : gmap nat bool :=
  match actors with
  | [] => flags
  | a :: rest =>
      set_visibilities (S i) rest (SetVisibility a (bool_decide (i = 0)) flags)
  end.

(** [standard_tree(actors, actor_names, base_id)], with the flags written
    before the call and after it. The first loop sets the visibility of
    every actor; the comprehension enumerates [actor_names], whose [i]-th
    element is [actor_names[i]]. [actor_names] may be None (it is an
    Optional argument of the caller): enumerating it raises. The list of
    actors returned is the list given. *)
Definition standard_tree (flags : gmap nat bool) (actors : list actor)
    (actor_names : option (list string)) (base_id : nat)
    : result (gmap nat bool * list actor * list string * list tree_entry) :=
  let flags := set_visibilities 0 actors flags in
  match actor_names with
  | None => raise (TypeError NotIterable)
  | Some names =>
      let tree :=
        imap (λ i nm,
          {| id := str (base_id + 1 + i);
             parent := if bool_decide (i = 0) then str 0 else str (base_id + 1);
             visible := if bool_decide (i = 0) then true else false;
             name := nm |}) names in
      ret (flags, actors, names, tree)
  end.

(** One group of [generate_actors_tree]: the three values are all None when
    the actors are None. *)
Definition group (flags : gmap nat bool) (actors : option (list actor))
    (actor_ids : option (list string)) (base_id : nat)
    : result (gmap nat bool * option (list actor) * option (list string)
              * option (list tree_entry)) :=
  match actors with
  | Some acts =>
      r <- standard_tree flags acts actor_ids base_id;;
      let '(flags, a, n, t) := r in
      ret (flags, Some a, Some n, Some t)
  | None => ret (flags, None, None, None)
  end.

(** [generate_actors_tree]. The actors of the result are read at the end
    of the call, after both loops have written their flags. *)
Definition generate_actors_tree
    (pc_actors : option (list actor)) (pc_actor_ids : option (list string))
    (mesh_actors : option (list actor)) (mesh_actor_ids : option (list string))
    : result (list actor * list string * list tree_entry) :=
  pc <- group ∅ pc_actors pc_actor_ids 0;;
  let '(flags, pc_actors, pc_actor_ids, pc_tree) := pc in
  mesh <- group flags mesh_actors mesh_actor_ids
            (match pc_actors with None => 0 | Some a => length a end);;
  let '(flags, mesh_actors, mesh_actor_ids, mesh_tree) := mesh in
  totel_actors <- add pc_actors mesh_actors;;
  totel_actor_ids <- add pc_actor_ids mesh_actor_ids;;
  totel_tree <- add pc_tree mesh_tree;;
  ret (seen flags <$> totel_actors, totel_actor_ids, totel_tree).

(** The tree of one group, as a function of the names alone. *)
Definition group_tree (names : list string) (base_id : nat) : list tree_entry :=
  imap (λ i nm,
    {| id := str (base_id + 1 + i);
       parent := if bool_decide (i = 0) then str 0 else str (base_id + 1);
       visible := if bool_decide (i = 0) then true else false;
       name := nm |}) names.

Definition count_visible (b : bool) (tree : list tree_entry) : nat :=
  length (filter (λ e, visible e = b) tree).

(** A value of a keyword argument. *)
Inductive kwarg :=
  | KStr (s : string)
  | KInt (z : Z)
  | KFloat (q : Q).

(** What the rest of the package and [os] give to this module: the
    plotter and the models, the call
    [add_single_model(plotter=plotter, model=model, **kwargs)] of
    [pv_plotter] (with the binding of its keywords), [sample_dataset] of
    [dataset], and [os.path.join] and [os.listdir]. *)
Class Viewer := {
  plotter : Type;
  model : Type;
  anndata : Type;
  add_single_model : plotter → model → gmap string kwarg → result actor;
  sample_dataset :
    string → string →
    result (anndata * option (list model) * option (list string)
            * option (list model) * option (list string));
  path_join : string → string → string;
  listdir : string → result (list string)
}.

Section viewer.
Context `{Viewer}.

(** [kwargs.update(added)] when [added] is not None. *)
Definition update_kwargs (kwargs : gmap string kwarg)
    (added : option (gmap string kwarg)) : gmap string kwarg :=
  match added with
  | Some more => more ∪ kwargs
  | None => kwargs
  end.

(** The comprehension over the models of one kind, or None. *)
Definition model_actors (pl : plotter) (models : option (list model))
    (kwargs : gmap string kwarg) : result (option (list actor)) :=
  match models with
  | Some ms =>
      actors <- mapM (λ m, add_single_model pl m kwargs) ms;;
      ret (Some actors)
  | None => ret None
  end.

Definition generate_actors (pl : plotter)
    (pc_models mesh_models : option (list model))
    (pc_added_kwargs mesh_added_kwargs : option (gmap string kwarg))
    : result (option (list actor) * option (list actor)) :=
  (* Generate actors for pc models *)
  let pc_kwargs :=
    {[ "model_style" := KStr "points"; "model_size" := KInt 3 ]} in
  let pc_kwargs := update_kwargs pc_kwargs pc_added_kwargs in
  pc_actors <- model_actors pl pc_models pc_kwargs;;
  (* Generate actors for mesh models *)
  let mesh_kwargs :=
    {[ "opacity" := KFloat (1 # 2); "model_style" := KStr "surface" ]} in
  let mesh_kwargs := update_kwargs mesh_kwargs mesh_added_kwargs in
  mesh_actors <- model_actors pl mesh_models mesh_kwargs;;
  ret (pc_actors, mesh_actors).

Definition init_actors (pl : plotter) (sample_id path : string)
    : result (string * list actor * list string * list tree_entry) :=
  data <- sample_dataset sample_id path;;
  let '(adata, pc_models, pc_model_ids, mesh_models, mesh_model_ids) := data in
  (* Generate actors *)
  generated <- generate_actors pl pc_models mesh_models None None;;
  let '(pc_actors, mesh_actors) := generated in
  (* Generate the relationship tree of actors *)
  trees <- generate_actors_tree pc_actors pc_model_ids
             mesh_actors mesh_model_ids;;
  let '(actors, actor_ids, tree) := trees in
  let anndata_dir := path_join path "h5ad" in
  names <- listdir anndata_dir;;
  first <- match names !! 0 with
           | Some name => ret name
           | None => raise IndexError
           end;;
  let anndata_path := path_join anndata_dir first in
  ret (anndata_path, actors, actor_ids, tree).

End viewer.

(** A viewer to run the module on: models are numbers, the plotter counts,
    every model gets the actor of its number, shown as VTK shows a new
    actor; one sample with two point clouds and one mesh and
    one without meshes. *)
Definition sample_viewer : Viewer := {|
  plotter := nat;
  model := nat;
  anndata := string;
  add_single_model pl m kwargs :=
    inr (Actor m true);
  sample_dataset sample_id path :=
    if bool_decide (sample_id = "drosophila_E7_9h")
    then inr ("adata", Some [10; 11], Some ["PC_CNS"; "PC_embryo"],
              Some [20], Some ["Mesh_embryo"])
    else if bool_decide (sample_id = "points_only")
    then inr ("adata", Some [10], Some ["PC_embryo"], None, None)
    else inl (OSError path);
  path_join a b := a +:+ "/" +:+ b;
  listdir d :=
    if bool_decide (d = "assets/drosophila_E7_9h/h5ad")
    then inr ["E7_9h_cellbin.h5ad"]
    else inl (OSError d)
|}.

End PvActors.

(** ** assets/dataset_manager.py *)

Module DatasetManager.
Import Py.

(** What the file system, [pathlib], [base64] and trame's [to_mime] give.
    Resolving a path can raise (a NUL in the path, a loop of links, a
    working directory that is gone). *)
Class Host := {
  read_binary : string → result (list Byte.byte);  (* open(p, "rb").read() *)
  b64encode_ascii : list Byte.byte → string;
  to_mime : string → string;
  is_file : string → bool;
  path_parent : string → string;
  is_absolute : string → bool;
  joinpath : string → string → string;
  (* str(Path(p).resolve().absolute()) *)
  resolve_absolute : string → result string;
  (* names that ordinary attribute lookup finds on every object
     (__class__, __dict__, __doc__, ...) *)
  object_attribute : string → bool
}.

Section manager.
Context `{Host}.

Definition to_base64 (file_path : string) : result string :=
  content <- read_binary file_path;;
  ret (b64encode_ascii content).

Definition to_url (file_path : string) : result string :=
  encoded <- to_base64 file_path;;
  let mime := to_mime file_path in
  ret ("data:" +:+ mime +:+ ";base64," +:+ encoded).

(** The instance: [self._root] and the dict [self._assests]. Stored values
    are the strings that [file_url] and [dir_url] compute. *)
Record LocalFileManager := {
  _root : string;
  _assests : gmap string string
}.

Definition __init__ (base_path : string) : result LocalFileManager :=
  let _base := if is_file base_path then path_parent base_path else base_path in
  root <- resolve_absolute _base;;
  ret {| _root := root; _assests := ∅ |}.

(** [dict.get(name)]: the value, or None. *)
Definition __getitem__ (self : LocalFileManager) (name : string)
    : option string :=
  _assests self !! name.

Definition __getattr__ (self : LocalFileManager) (name : string)
    : option string :=
  _assests self !! name.

Definition _to_path (self : LocalFileManager) (file_path : option string)
    : result string :=
  match file_path with
  | None => raise (TypeError BadPathArgument)      (* Path(None) *)
  | Some fp =>
      if is_absolute fp then resolve_absolute fp
      else resolve_absolute (joinpath (_root self) fp)
  end.

(** [file_url(key, file_path)]: the raised exception or returned string,
    and the manager after the call. *)
Definition file_url (self : LocalFileManager)
    (key file_path : option string) : result string * LocalFileManager :=
  let '(file_path, key) :=
    match file_path with
    | None => (key, file_path)
    | Some _ => (file_path, key)
    end in
  match (p <- _to_path self file_path;; to_url p) with
  | inl e => (inl e, self)
  | inr data =>
      match key with
      | Some k => (inr data, {| _root := _root self;
                                _assests := <[k := data]> (_assests self) |})
      | None => (inr data, self)
      end
  end.

Definition dir_url (self : LocalFileManager)
    (key dir_path : option string) : result string * LocalFileManager :=
  let '(dir_path, key) :=
    match dir_path with
    | None => (key, dir_path)
    | Some _ => (dir_path, key)
    end in
  match _to_path self dir_path with
  | inl e => (inl e, self)
  | inr data =>
      match key with
      | Some k => (inr data, {| _root := _root self;
                                _assests := <[k := data]> (_assests self) |})
      | None => (inr data, self)
      end
  end.

Definition assets (self : LocalFileManager) : gmap string string :=
  _assests self.

(** [get_assets] with its variadic [keys]. The values of the result are strings or None; with
    no key the result is [self.assets] itself. *)
Definition get_assets (self : LocalFileManager) (keys : list string)
    : gmap string (option string) :=
  if bool_decide (length keys = 0) then Some <$> assets self
  else foldl (λ _assets key, <[key := _assests self !! key]> _assets) ∅ keys.

(** What [self.name] evaluates to. The interpreter first looks the name up
    on the instance and its class; [__getattr__] runs only when that
    finds nothing. *)
Inductive attribute :=
  | InstanceRoot (p : string)
  | InstanceAssests (d : gmap string string)
  | PropertyAssets (d : gmap string string)
  | BoundMethod (method : string)
  | ObjectAttribute (attr : string)
  | FromGetattr (v : option string).

Definition class_methods : list string :=
  ["__init__"; "__getitem__"; "__getattr__"; "_to_path"; "file_url";
   "dir_url"; "get_assets"].

Definition regular_attribute (name : string) : bool :=
  bool_decide (name = "assets") || bool_decide (name = "_root")
  || bool_decide (name = "_assests") || bool_decide (name ∈ class_methods)
  || object_attribute name.

Definition getattr (self : LocalFileManager) (name : string) : attribute :=
  if bool_decide (name = "assets") then PropertyAssets (assets self)
  else if bool_decide (name = "_root") then InstanceRoot (_root self)
  else if bool_decide (name = "_assests") then InstanceAssests (_assests self)
  else if bool_decide (name ∈ class_methods) then BoundMethod name
  else if object_attribute name then ObjectAttribute name
  else FromGetattr (__getattr__ self name).

(** A statement [manager.dir_url(key, dir_path)] of the module: the
    manager after it, or the exception that ends the import of the
    module. *)
Definition dir_url_statement (self : LocalFileManager) (key dir_path : string)
    : result LocalFileManager :=
  match dir_url self (Some key) (Some dir_path) with
  | (inl e, _) => raise e
  | (inr _, after) => ret after
  end.

(** The module-level instance and its three registered data sets. *)
Definition local_dataset_manager (__file__ : string)
    : result LocalFileManager :=
  m <- __init__ __file__;;
  m <- dir_url_statement m "drosophila_E7_9h" "./dataset/drosophila_E7_9h";;
  m <- dir_url_statement m "drosophila_E9_10h" "./dataset/drosophila_E9_10h";;
  dir_url_statement m "drosophila_E16_17h" "./dataset/drosophila_E16_17h".

End manager.

(** A small host to run the manager on: one text file [/srv/app/hi.txt]
    holding the two bytes of "hi", absolute paths starting with a slash,
    and a link [/srv/app/loop] that points to itself. *)
Definition sample_host : Host := {|
  read_binary p :=
    if bool_decide (p = "/srv/app/hi.txt") then inr [Byte.x68; Byte.x69]
    else inl (OSError p);
  b64encode_ascii bs :=
    match bs with [Byte.x68; Byte.x69] => "aGk=" | _ => "" end;
  to_mime p := "text/plain";
  is_file p := bool_decide (p = "/srv/app/hi.txt");
  path_parent p := "/srv/app";
  is_absolute p := String.prefix "/" p;
  joinpath base p := base +:+ "/" +:+ p;
  resolve_absolute p :=
    if bool_decide (p = "/srv/app/loop")
    then inl (LibraryError "Symlink loop from '/srv/app/loop'")
    else inr p;
  object_attribute name :=
    bool_decide (name ∈ ["__class__"; "__dict__"; "__doc__"; "__module__"])
|}.

(** The manager that [LocalFileManager("/srv/app/hi.txt")] makes there. *)
Definition sample_manager : LocalFileManager :=
  {| _root := "/srv/app"; _assests := ∅ |}.

End DatasetManager.

(** ** assets/anndata_preprocess.py *)

Module AnndataPreprocess.
Import Py.

(** scipy/numpy matrices: how they are stored, their shape, their cells. *)
Inductive storage := Dense | CSR | CSC | COO.

Record matrix := Matrix {
  format : storage;
  shape : nat * nat;
  entries : nat → nat → Q
}.

Definition issparse (m : matrix) : bool :=
  match format m with Dense => false | _ => true end.

Definition csr_matrix (m : matrix) : matrix :=
  {| format := CSR; shape := shape m; entries := entries m |}.

(** [m.copy()]: values are immutable here, a copy is the value. *)
Definition copy (m : matrix) : matrix := m.

Record DataFrame := {
  index : list string;
  columns : gmap string (list Q)
}.

Record AnnData := {
  X : option matrix;
  obs : DataFrame;
  var : DataFrame;
  uns : gmap string string;
  layers : gmap string matrix;
  obsm : gmap string matrix;
  varm : gmap string matrix;
  obsp : gmap string matrix;
  varp : gmap string matrix
}.

Definition n_obs (a : AnnData) : nat := length (index (obs a)).
Definition n_vars (a : AnnData) : nat := length (index (var a)).

Definition set_X (a : AnnData) (x : matrix) : AnnData :=
  {| X := Some x; obs := obs a; var := var a; uns := uns a;
     layers := layers a; obsm := obsm a; varm := varm a; obsp := obsp a;
     varp := varp a |}.

Definition set_layer (a : AnnData) (k : string) (m : matrix) : AnnData :=
  {| X := X a; obs := obs a; var := var a; uns := uns a;
     layers := <[k := m]> (layers a); obsm := obsm a; varm := varm a;
     obsp := obsp a; varp := varp a |}.

Definition set_obsm (a : AnnData) (k : string) (m : matrix) : AnnData :=
  {| X := X a; obs := obs a; var := var a; uns := uns a;
     layers := layers a; obsm := <[k := m]> (obsm a); varm := varm a;
     obsp := obsp a; varp := varp a |}.

(** [del adata.uns, adata.layers, adata.obsm, adata.obsp, adata.varm]:
    each deleter of AnnData resets its attribute to an empty mapping. *)
Definition del_uns_layers_obsm_obsp_varm (a : AnnData) : AnnData :=
  {| X := X a; obs := obs a; var := var a; uns := ∅; layers := ∅;
     obsm := ∅; varm := ∅; obsp := ∅; varp := varp a |}.

(** The h5ad files, each under the path that names it here, and the
    AnnData it holds. *)
Definition read_h5ad (fs : gmap string AnnData) (filename : string)
    : result AnnData :=
  match fs !! filename with
  | Some a => ret a
  | None => raise (OSError filename)
  end.

(** Whether a file can be written at a path: its directory exists and may
    be written to. *)
Class Disk := {
  writable : string → bool
}.

(** [adata.write_h5ad(filename, compression="gzip")]: the file then holds
    the object, or the write raises. *)
Definition write_h5ad `{Disk} (fs : gmap string AnnData) (a : AnnData)
    (filename : string) : result (gmap string AnnData) :=
  if writable filename then ret (<[filename := a]> fs)
  else raise (OSError filename).

(** [import dynamo as dyn] followed by
    [dyn.pp.normalize_cell_expr_by_size_factors(adata=adata, layers="X",
    skip_log=False)], which works on [adata] in place. *)
Class Dynamo := {
  normalize_cell_expr_by_size_factors : AnnData → result AnnData
}.

Definition to_sparse (m : matrix) : matrix :=
  if issparse m then copy m else csr_matrix m.

Definition anndata_preprocess `{Dynamo} `{Disk} (fs : gmap string AnnData)
    (path output_path : string) (X_counts : string) (X_log1p : option string)
    (spatial_key : string) : result (AnnData * gmap string AnnData) :=
  adata <- read_h5ad fs path;;
  (* matrices *)
  counts_layer <- getitem (layers adata) X_counts;;
  let X_counts := to_sparse counts_layer in
  r <- match X_log1p with
       | Some key =>
           log_layer <- getitem (layers adata) key;;
           ret (adata, to_sparse log_layer)
       | None =>
           let adata := set_X adata (copy X_counts) in
           adata <- normalize_cell_expr_by_size_factors adata;;
           match X adata with
           | Some x => ret (adata, csr_matrix (copy x))
           | None => raise (AttributeError "copy")
           end
       end;;
  let '(adata, X_log1p) := r in
  (* spatial coordinates *)
  spatial_coords <- getitem (obsm adata) spatial_key;;
  (* preprocess *)
  let adata := del_uns_layers_obsm_obsp_varm adata in
  let adata := set_X adata X_counts in
  let adata := set_layer adata "X_log1p" X_log1p in
  let adata := set_obsm adata "spatial" spatial_coords in
  fs <- write_h5ad fs adata output_path;;
  ret (adata, fs).

(** What AnnData guarantees of every object it hands out. *)
Definition valid (a : AnnData) : Prop :=
  (∀ x, X a = Some x → shape x = (n_obs a, n_vars a))
  ∧ map_Forall (λ _ m, shape m = (n_obs a, n_vars a)) (layers a)
  ∧ map_Forall (λ _ m, (shape m).1 = n_obs a) (obsm a).

(** The spatial coordinates are three-dimensional. *)
Definition spatial_3d (a : AnnData) (spatial_key : string) : Prop :=
  ∀ m, obsm a !! spatial_key = Some m → (shape m).2 = 3.

(** What dynamo's normalisation leaves alone: the observations' names, the
    arrays of [obsm], and the shape of [X]. *)
Definition normalize_frame `{Dynamo} : Prop :=
  ∀ a a', normalize_cell_expr_by_size_factors a = inr a' →
    index (obs a') = index (obs a)
    ∧ obsm a' = obsm a
    ∧ (∀ x', X a' = Some x' → ∃ x, X a = Some x ∧ shape x' = shape x).

(** A small data set to run the function on: two cells, two genes, dense
    counts and a sparse log1p layer, three-dimensional coordinates, a PCA
    and a gene-by-gene matrix. *)
Definition sample_adata : AnnData := {|
  X := None;
  obs := {| index := ["cell0"; "cell1"]; columns := ∅ |};
  var := {| index := ["geneA"; "geneB"]; columns := ∅ |};
  uns := {[ "__type" := "UMI" ]};
  layers :=
    {[ "X_counts" := Matrix Dense (2, 2) (λ i j, inject_Z (Z.of_nat (i + j)));
       "X_log1p" := Matrix CSC (2, 2) (λ i j, inject_Z (Z.of_nat (i * j))) ]};
  obsm := {[ "3d_align_spatial" := Matrix Dense (2, 3) (λ i j, 0%Q);
             "X_pca" := Matrix Dense (2, 30) (λ i j, 0%Q) ]};
  varm := ∅;
  obsp := ∅;
  varp := {[ "gene_corr" := Matrix Dense (2, 2) (λ i j, 1%Q) ]}
|}.

(** Every directory but [/missing] exists. *)
Definition sample_disk : Disk := {|
  writable p := negb (String.prefix "/missing/" p)
|}.

Definition sample_fs : gmap string AnnData :=
  {[ "E7_9h_cellbin.h5ad" := sample_adata ]}.

(** dynamo's normalisation as far as its effect on the AnnData goes: it
    needs [X], rewrites its cells, and records the size factors it computed
    as columns of [obs] and its settings in [uns]. *)
Definition sample_dynamo : Dynamo := {|
  normalize_cell_expr_by_size_factors a :=
    match X a with
    | None => inl (LibraryError "no X")
    | Some x =>
        inr {| X := Some {| format := format x; shape := shape x;
                            entries := λ i j, (entries x i j / 2)%Q |};
               obs := {| index := index (obs a);
                         columns :=
                           <["Size_Factor" := (λ _, 2%Q) <$> index (obs a)]>
                             (columns (obs a)) |};
               var := var a;
               uns := <["pp" := "norm_method=log1p"]> (uns a);
               layers := layers a; obsm := obsm a; varm := varm a;
               obsp := obsp a; varp := varp a |}
    end
|}.

End AnndataPreprocess.

(** ** static_viewer/pv_pipeline/pv_morphogenesis.py *)

Module PvMorphogenesis.
Import Py.

(** Floats are read as real numbers. Of the time values only their
    number and their order are stated, which hold of the float64 values as
    well; no equation between computed floats is. *)
Definition point : Type := list R.

Record PolyData := {
  points : list point;
  point_data : gmap string (list point)
}.

Record arguments := {
  source_adata : AnndataPreprocess.AnnData;
  target_adata : AnndataPreprocess.AnnData;
  source_pc_model : PolyData;
  mapping_factor : R;
  morphofield_factor : Z;
  morphopath_t_end : Z;
  morphopath_sampling : Z
}.

(** What lines 26-145 leave behind for the stage computation: the three
    models, and in [source_adata] the fate times
    [uns["fate_morpho"]["t"]] (a dict, in its own order, keys read as
    int), the initial states and the index of [obs]. *)
Record analysed := {
  analysed_pc_model : PolyData;
  pc_vectors : PolyData;
  trajectory_model : PolyData;
  fate_t : list (Z * list R);
  init_states : list point;
  obs_index : list string
}.

(** The module [st] that [import spateo as st] binds: the calls to
    [st.tdr] of lines 26-145, in their order, as one step. *)
Record Spateo := {
  tdr_analysis : arguments → result analysed
}.

(** What is installed: whether a package spateo is there to import, what
    running the package's own code then gives (the module, or the
    exception it raised, an ImportError when something spateo imports is
    missing), dynamo's [SvcVectorField] and scipy's [odeint]. *)
Class Libraries := {
  spateo_installed : bool;
  spateo_module : result Spateo;
  vf_from_adata : analysed → result (point → point);
  odeint : (point → R → point) → point → list R → result (list point)
}.

(** [import spateo as st]. Without the package the interpreter raises
    ModuleNotFoundError, which is an ImportError. *)
Definition import_spateo `{Libraries} : result Spateo :=
  if spateo_installed then spateo_module
  else raise (ImportError "No module named 'spateo'").

Definition install_message : string :=
  "You need to install the package `spateo`. 
Install spateo via `pip install spateo-release`".

(** [int(x)] on a float: rounding towards zero. *)
Definition py_int (x : R) : Z :=
  if Rle_dec 0 x then Int_part x else (- Int_part (- x))%Z.

(** [max(xs)]. *)
Definition py_max (xs : list Z) : result Z :=
  match xs with
  | [] => raise (ValueError "max() arg is an empty sequence")
  | x :: xs' => ret (foldl Z.max x xs')
  end.

Definition key_le (a b : Z * list R) : Prop := (a.1 ≤ b.1)%Z.

#[global] Instance key_le_dec a b : Decision (key_le a b) :=
  decide (a.1 ≤ b.1)%Z.

(** [np.unique]: the sorted distinct values. *)
Definition np_unique (l : list Z) : list Z :=
  merge_sort Z.le (remove_dups l).

Definition log10 (x : R) : R := (ln x / ln 10)%R.

(** [np.linspace(start, stop, num)] and [np.logspace(start, stop, num)]. *)
Definition np_linspace (start stop : R) (num : nat) : list R :=
  (λ i, (INR i * ((stop - start) / INR (num - 1)) + start)%R) <$> seq 0 num.

Definition np_logspace (start stop : R) (num : nat) : list R :=
  (λ y, Rpower 10 y) <$> np_linspace start stop num.

(** Lines 148-153: the integer fate times up to 3000, with 0. *)
Definition flats_of (fate : list (Z * list R)) : list Z :=
  let t := snd <$> merge_sort key_le fate in
  let flats := np_unique (py_int <$> concat t) in
  let flats := 0%Z :: flats in
  merge_sort Z.le (filter (λ x, (x ≤ 3000)%Z) flats).

(** Line 154. *)
Definition time_vec_of (fate : list (Z * list R)) : result (list R) :=
  m <- py_max (flats_of fate);;
  ret ((λ x, (x - 1)%R) <$> np_logspace 0 (log10 (IZR (m + 1))) 100).

(** The [i]-th value of that vector when [max(flats)] is [m]. *)
Definition time_at (m : Z) (i : nat) : R :=
  (Rpower 10 (INR i * ((log10 (IZR (m + 1)) - 0) / INR (100 - 1)) + 0) - 1)%R.

(** One entry of [stages_X]: the first is [obs.index.tolist()], the others
    are the displaced positions. *)
Inductive stage :=
  | ObsIndex (names : list string)
  | Positions (pts : list point).

Definition is_positions (s : stage) : bool :=
  match s with Positions _ => true | ObsIndex _ => false end.

Section stages.
Context `{Libraries}.

(** [displace = lambda x, dt: odeint(f, x, [0, dt])] and the [[1]] that
    line 164 takes of it. *)
Definition displace_1 (f : point → R → point) (x : point) (dt : R)
    : result point :=
  rows <- odeint f x [0%R; dt];;
  match rows !! 1 with
  | Some row => ret row
  | None => raise IndexError
  end.

(** The loop of lines 163-165 over the values [steps] of [range(100)]. *)
Fixpoint stage_loop (f : point → R → point) (time_vec : list R)
    (steps : list nat) (pts : list point) (stages_X : list stage)
    : result (list stage) :=
  match steps with
  | [] => ret stages_X
  | i :: rest =>
      dt <- match time_vec !! i with
            | Some dt => ret dt
            | None => raise IndexError
            end;;
      pts <- mapM (λ cur_pts, displace_1 f cur_pts dt) pts;;
      stage_loop f time_vec rest pts (stages_X ++ [Positions pts])
  end.

(** Lines 147-167. *)
Definition cell_stages (an : analysed)
    : result (PolyData * PolyData * PolyData * list stage) :=
  time_vec <- time_vec_of (fate_t an);;
  func <- vf_from_adata an;;
  let f := λ x (_ : R), func x in
  let pts := init_states an in
  let stages_X := [ObsIndex (obs_index an)] in
  stages_X <- stage_loop f time_vec (seq 0 100) pts stages_X;;
  ret (analysed_pc_model an, pc_vectors an, trajectory_model an, stages_X).

Definition morphogenesis (args : arguments)
    : result (PolyData * PolyData * PolyData * list stage) :=
  match import_spateo with
  | inl (ImportError _) => raise (ImportError install_message)
  | inl e => raise e
  | inr st =>
      an <- tdr_analysis st args;;
      cell_stages an
  end.

End stages.

(** Libraries to run the function on: spateo is installed, the analysis
    finds two cells with fate times up to 10000, the vector field moves
    every cell along the first axis, and the integrator takes one Euler
    step. *)
Definition sample_model : PolyData := {| points := []; point_data := ∅ |}.

Definition sample_analysed : analysed := {|
  analysed_pc_model := sample_model;
  pc_vectors := sample_model;
  trajectory_model := sample_model;
  fate_t := [(1%Z, [0; 2.5; 4000; 10000]%R); (0%Z, [0; 1.5; 2999.5; 10000]%R)];
  init_states := [[0; 0; 0]%R; [1; 2; 3]%R];
  obs_index := ["cell0"; "cell1"]
|}.

Definition euler_step (f : point → R → point) (x : point) (ts : list R)
    : result (list point) :=
  inr ((λ t, zip_with (λ xi vi, (xi + t * vi)%R) x (f x 0%R)) <$> ts).

Definition sample_libraries : Libraries := {|
  spateo_installed := true;
  spateo_module := inr {| tdr_analysis := λ _, inr sample_analysed |};
  vf_from_adata := λ _, inr (λ _, [1; 0; 0]%R);
  odeint := euler_step
|}.



(** The same machine with an integrator that always fails, and with an
    analysis that finds no cell. *)
Definition libraries_failing_odeint : Libraries := {|
  spateo_installed := true;
  spateo_module := inr {| tdr_analysis := λ _, inr sample_analysed |};
  vf_from_adata := λ _, inr (λ _, [1; 0; 0]%R);
  odeint := λ _ _ _, inl (LibraryError "odeint failed")
|}.

Definition analysed_no_cells : analysed := {|
  analysed_pc_model := sample_model;
  pc_vectors := sample_model;
  trajectory_model := sample_model;
  fate_t := [];
  init_states := [];
  obs_index := []
|}.

Definition libraries_no_cells : Libraries := {|
  spateo_installed := true;
  spateo_module := inr {| tdr_analysis := λ _, inr analysed_no_cells |};
  vf_from_adata := λ _, inr (λ _, [1; 0; 0]%R);
  odeint := λ _ _ _, inl (LibraryError "odeint failed")
|}.

Definition sample_arguments : arguments := {|
  source_adata := AnndataPreprocess.sample_adata;
  target_adata := AnndataPreprocess.sample_adata;
  source_pc_model := sample_model;
  mapping_factor := (1 / 1000)%R;
  morphofield_factor := 3000;
  morphopath_t_end := 10000;
  morphopath_sampling := 500
|}.

End PvMorphogenesis.

(** * Properties *)

(** ** The result monad *)

Module PySpec.
Import Py.

Lemma bind_inr {A B} (m : result A) (k : A → result B) (b : B) :
  Py.bind m k = inr b ↔ ∃ a, m = inr a ∧ k a = inr b.
Proof.
  destruct m as [e|a]; cbn; split.
  - discriminate.
  - by intros (? & [=] & _).
  - eauto.
  - by intros (? & [= <-] & ?).
Qed.

Lemma getitem_inr {V} (d : gmap string V) key v :
  getitem d key = inr v ↔ d !! key = Some v.
Proof.
  unfold getitem, ret, raise. destruct (d !! key); split; congruence.
Qed.

Lemma mapM_length {A B} (f : A → result B) (l : list A) (l' : list B) :
  mapM f l = inr l' → length l' = length l.
Proof.
  revert l'. induction l as [|a l IH]; intros l'; cbn.
  - by intros [= <-].
  - destruct (f a) as [e|b]; [done|]. cbn.
    destruct (mapM f l) as [e|bs]; [done|]. cbn.
    intros [= <-]. cbn. f_equal. by apply IH.
Qed.

Lemma mapM_returns {A B} (f : A → result B) (l : list A) :
  (∀ a, ∃ b, f a = inr b) → ∃ l', mapM f l = inr l'.
Proof.
  intros Hf. induction l as [|a l [bs IH]]; cbn; [by eexists|].
  destruct (Hf a) as [b ->]. cbn. rewrite IH. cbn. by eexists.
Qed.


End PySpec.

(** ** The actor tree of pv_actors.py *)

Module PvActorsSpec.
Import Py PvActors.

Lemma standard_tree_Some flags actors names base_id :
  standard_tree flags actors (Some names) base_id
  = inr (set_visibilities 0 actors flags, actors, names,
         group_tree names base_id).
Proof. reflexivity. Qed.

Lemma standard_tree_None flags actors base_id :
  standard_tree flags actors None base_id = inl (TypeError NotIterable).
Proof. reflexivity. Qed.

(** With all four arguments given, the call returns the two groups one
    after the other, the actors as they read after both loops; the mesh
    ids start after the number of pc actors. *)
Lemma generate_actors_tree_lists pa pn ma mn :
  generate_actors_tree (Some pa) (Some pn) (Some ma) (Some mn)
  = inr (seen (set_visibilities 0 ma (set_visibilities 0 pa ∅)) <$> (pa ++ ma),
         pn ++ mn,
         group_tree pn 0 ++ group_tree mn (length pa)).
Proof. reflexivity. Qed.

Lemma group_tree_length names base_id :
  length (group_tree names base_id) = length names.
Proof. apply length_imap. Qed.

Lemma group_tree_lookup names base_id i e :
  group_tree names base_id !! i = Some e ↔
  ∃ nm, names !! i = Some nm ∧
    e = {| id := str (base_id + 1 + i);
           parent := if bool_decide (i = 0) then str 0 else str (base_id + 1);
           visible := if bool_decide (i = 0) then true else false;
           name := nm |}.
Proof. unfold group_tree. by rewrite list_lookup_imap_Some. Qed.

(** The name of entry [i] is [actor_names[i]]. *)
Lemma group_tree_name names base_id i e :
  group_tree names base_id !! i = Some e → names !! i = Some (name e).
Proof. rewrite group_tree_lookup. by intros (nm & -> & ->). Qed.

Lemma group_tree_visible names base_id i e :
  group_tree names base_id !! i = Some e → (visible e = true ↔ i = 0).
Proof.
  rewrite group_tree_lookup. intros (nm & _ & ->). cbn.
  case_bool_decide; naive_solver.
Qed.

Lemma group_tree_ids names base_id :
  id <$> group_tree names base_id
  = (λ i, str (base_id + 1 + i)) <$> seq 0 (length names).
Proof.
  apply list_eq. intros i. rewrite !list_lookup_fmap.
  destruct (names !! i) as [nm|] eqn:Hnm.
  - assert (group_tree names base_id !! i = Some
      {| id := str (base_id + 1 + i);
         parent := if bool_decide (i = 0) then str 0 else str (base_id + 1);
         visible := if bool_decide (i = 0) then true else false;
         name := nm |}) as -> by (apply group_tree_lookup; eauto).
    apply lookup_lt_Some in Hnm. by rewrite lookup_seq_lt.
  - assert (group_tree names base_id !! i = None) as ->.
    { apply lookup_ge_None. rewrite group_tree_length.
      by apply lookup_ge_None. }
    apply lookup_ge_None in Hnm. by rewrite lookup_seq_ge.
Qed.

(** Entries built at a non-zero index are all hidden. *)
Lemma filter_visible_imap (g : nat → string → tree_entry) (l : list string) :
  (∀ i x, visible (g i x) = false) →
  filter (λ e, visible e = true) (imap g l) = []
  ∧ filter (λ e, visible e = false) (imap g l) = imap g l.
Proof.
  revert g. induction l as [|x l IH]; intros g Hg; [done|].
  rewrite imap_cons.
  destruct (IH (g ∘ S)) as [IH1 IH2]; [intros; apply Hg|].
  split.
  - rewrite filter_cons_False; [done|]. by rewrite Hg.
  - rewrite filter_cons_True; [|by rewrite Hg]. by rewrite IH2.
Qed.

Lemma count_visible_group_tree names base_id :
  names ≠ [] →
  count_visible true (group_tree names base_id) = 1
  ∧ count_visible false (group_tree names base_id) = length names - 1.
Proof.
  destruct names as [|nm names]; [done|]. intros _.
  unfold count_visible, group_tree. rewrite imap_cons.
  match goal with |- context [imap ?g names] =>
    destruct (filter_visible_imap g names) as [H1 H2]; [done|] end.
  split.
  - rewrite filter_cons_True; [|done]. by rewrite H1.
  - rewrite filter_cons_False; [|done]. rewrite H2, length_imap. cbn. lia.
Qed.

Lemma count_visible_app b t1 t2 :
  count_visible b (t1 ++ t2) = count_visible b t1 + count_visible b t2.
Proof. unfold count_visible. by rewrite filter_app, length_app. Qed.

Lemma seq_shift_fmap {B} (f : nat → B) b n :
  (λ i, f (b + i)) <$> seq 0 n = f <$> seq b n.
Proof.
  replace (seq b n) with (seq (b + 0) n) by (f_equal; lia).
  by rewrite <- fmap_add_seq, <- list_fmap_compose.
Qed.

Lemma str_inj : Inj (=) (=) str.
Proof. unfold str. apply _. Qed.

(** Claim C1, as the code has it. For k >= 1 point-cloud actors and m >= 1
    mesh actors with their k and m names, [generate_actors_tree] returns a
    tree of k+m entries in which exactly two entries have [visible] true,
    the first point-cloud entry (index 0) and the first mesh entry
    (index k), and the remaining k+m-2 entries have [visible] false. *)
Theorem generate_actors_tree_two_visible (k m : nat) pa pn ma mn :
  length pa = k → length pn = k → length ma = m → length mn = m →
  1 ≤ k → 1 ≤ m →
  ∃ acts ids tree,
    generate_actors_tree (Some pa) (Some pn) (Some ma) (Some mn)
      = inr (acts, ids, tree)
    ∧ length tree = k + m
    ∧ count_visible true tree = 2
    ∧ count_visible false tree = k + m - 2
    ∧ ∀ i e, tree !! i = Some e → (visible e = true ↔ i = 0 ∨ i = k).
Proof.
  intros Hpa Hpn Hma Hmn Hk Hm.
  eexists _, _, _. split; [apply generate_actors_tree_lists|].
  assert (pn ≠ []) as Hpn0 by (intros ->; cbn in *; lia).
  assert (mn ≠ []) as Hmn0 by (intros ->; cbn in *; lia).
  destruct (count_visible_group_tree pn 0 Hpn0) as [Hp1 Hp2].
  destruct (count_visible_group_tree mn (length pa) Hmn0) as [Hm1 Hm2].
  repeat split.
  - rewrite length_app, !group_tree_length. lia.
  - rewrite count_visible_app. lia.
  - rewrite count_visible_app. lia.
  - intros Hv. destruct (decide (i < length pn)) as [Hlt|Hge].
    + rewrite lookup_app_l in H by (by rewrite group_tree_length).
      left. by eapply group_tree_visible.
    + rewrite lookup_app_r in H by (rewrite group_tree_length; lia).
      rewrite group_tree_length in H.
      eapply group_tree_visible in H. apply H in Hv. right. lia.
  - intros [-> | ->].
    + rewrite lookup_app_l in H by (rewrite group_tree_length; lia).
      by eapply group_tree_visible.
    + rewrite lookup_app_r in H by (rewrite group_tree_length; lia).
      rewrite group_tree_length in H.
      eapply group_tree_visible; [done|]. lia.
Qed.

(** The claim as written fails already for one actor of each kind: both
    entries are visible and none is hidden. *)
Lemma generate_actors_tree_one_visible_fails :
  ∃ acts ids tree,
    generate_actors_tree (Some [Actor 0 false]) (Some ["pc"])
                         (Some [Actor 1 false]) (Some ["mesh"])
      = inr (acts, ids, tree)
    ∧ ¬ (count_visible true tree = 1 ∧ count_visible false tree = 1 + 1 - 1).
Proof.
  eexists _, _, _. split; [reflexivity|]. vm_compute. intros [? _]. lia.
Qed.

Lemma generate_actors_tree_two_visible_witness :
  ∃ acts ids tree,
    generate_actors_tree
      (Some [Actor 0 false; Actor 1 true]) (Some ["pc0"; "pc1"])
      (Some [Actor 2 false]) (Some ["mesh0"]) = inr (acts, ids, tree)
    ∧ length tree = 2 + 1
    ∧ count_visible true tree = 2
    ∧ count_visible false tree = 2 + 1 - 2
    ∧ ∀ i e, tree !! i = Some e → (visible e = true ↔ i = 0 ∨ i = 2).
Proof.
  apply (generate_actors_tree_two_visible 2 1); simpl; lia.
Defined.

(** Claim C7, as the code has it. In the returned tree the ids are pairwise
    distinct; the first entry of each group (index 0 for the point clouds,
    index k for the meshes) has parent "0"; every other point-cloud entry
    has the id of the first point-cloud entry as its parent and every other
    mesh entry the id of the first mesh entry. *)
Theorem generate_actors_tree_ids_parents (k m : nat) pa pn ma mn :
  length pa = k → length pn = k → length ma = m → length mn = m →
  1 ≤ k → 1 ≤ m →
  ∃ acts ids tree,
    generate_actors_tree (Some pa) (Some pn) (Some ma) (Some mn)
      = inr (acts, ids, tree)
    ∧ NoDup (id <$> tree)
    ∧ (∀ i e, tree !! i = Some e →
         id e = str (i + 1)
         ∧ ids !! i = Some (name e)
         ∧ (i = 0 ∨ i = k → parent e = "0")
         ∧ (0 < i < k → Some (parent e) = id <$> tree !! 0)
         ∧ (k < i → Some (parent e) = id <$> tree !! k)).
Proof.
  intros Hpa Hpn Hma Hmn Hk Hm.
  eexists _, _, _. split; [apply generate_actors_tree_lists|].
  assert (∀ i e, (group_tree pn 0 ++ group_tree mn (length pa)) !! i = Some e →
            id e = str (i + 1)) as Hid.
  { intros i e He. destruct (decide (i < length pn)) as [Hlt|Hge].
    - rewrite lookup_app_l in He by (by rewrite group_tree_length).
      apply group_tree_lookup in He as (nm & _ & ->). cbn. f_equal. lia.
    - rewrite lookup_app_r in He by (rewrite group_tree_length; lia).
      rewrite group_tree_length in He.
      apply group_tree_lookup in He as (nm & _ & ->). cbn. f_equal. lia. }
  assert (∃ e0, group_tree pn 0 !! 0 = Some e0 ∧ id e0 = str 1)
    as (e0 & He0 & Hid0).
  { destruct pn as [|nm pn]; [cbn in *; lia|]. by eexists. }
  assert (∃ ek, group_tree mn (length pa) !! 0 = Some ek
                ∧ id ek = str (length pa + 1)) as (ek & Hek & Hidk).
  { destruct mn as [|nm mn]; [cbn in *; lia|]. eexists. split; [done|].
    cbn. f_equal. lia. }
  split.
  - rewrite fmap_app, !group_tree_ids, !seq_shift_fmap.
    replace (length pa + 1) with (1 + length pn) by lia.
    rewrite <- fmap_app, <- seq_app.
    apply (NoDup_fmap_2 _), NoDup_seq.
  - intros i e He. split; [by apply Hid|].
    destruct (decide (i < length pn)) as [Hlt|Hge].
    + rewrite lookup_app_l in He by (by rewrite group_tree_length).
      pose proof (group_tree_name _ _ _ _ He) as Hnm.
      apply group_tree_lookup in He as (nm & _ & ->). cbn in *.
      split; [by rewrite lookup_app_l|].
      split; [intros [->| ->]; [done|lia]|].
      split; [|lia]. intros [Hi _].
      rewrite lookup_app_l by (rewrite group_tree_length; lia).
      rewrite He0. cbn. rewrite Hid0. by case_bool_decide; [lia|].
    + rewrite lookup_app_r in He by (rewrite group_tree_length; lia).
      rewrite group_tree_length in He.
      pose proof (group_tree_name _ _ _ _ He) as Hnm.
      apply group_tree_lookup in He as (nm & _ & ->). cbn in *.
      split; [by rewrite lookup_app_r by lia|].
      split; [|split; [lia|]].
      * intros [->| ->]; [lia|]. by replace (k - length pn) with 0 by lia.
      * intros Hi. rewrite lookup_app_r by (rewrite group_tree_length; lia).
        rewrite group_tree_length.
        replace (k - length pn) with 0 by lia. rewrite Hek. cbn.
        rewrite Hidk. case_bool_decide; [lia|done].
Qed.

(** The claim as written fails for one actor of each kind: the mesh entry
    is not the first entry of the tree, and its parent is "0", not the id
    "2" of the first mesh entry. *)
Lemma generate_actors_tree_mesh_root_parent :
  ∃ acts ids first second,
    generate_actors_tree (Some [Actor 0 false]) (Some ["pc"])
                         (Some [Actor 1 false]) (Some ["mesh"])
      = inr (acts, ids, [first; second])
    ∧ id second = "2"
    ∧ parent second = "0"
    ∧ parent second ≠ id second.
Proof. eexists _, _, _, _. by repeat split. Qed.

Lemma generate_actors_tree_ids_parents_witness :
  ∃ acts ids tree,
    generate_actors_tree
      (Some [Actor 0 false; Actor 1 true]) (Some ["pc0"; "pc1"])
      (Some [Actor 2 false; Actor 3 false]) (Some ["mesh0"; "mesh1"])
      = inr (acts, ids, tree)
    ∧ NoDup (id <$> tree)
    ∧ (∀ i e, tree !! i = Some e →
         id e = str (i + 1)
         ∧ ids !! i = Some (name e)
         ∧ (i = 0 ∨ i = 2 → parent e = "0")
         ∧ (0 < i < 2 → Some (parent e) = id <$> tree !! 0)
         ∧ (2 < i → Some (parent e) = id <$> tree !! 2)).
Proof.
  apply (generate_actors_tree_ids_parents 2 2); simpl; lia.
Defined.

(** Claim C8. When [pc_actors] or [mesh_actors] (or both) is None the call
    raises a TypeError and so does not return; when the names of the group
    that is present are a list, it is the concatenation [pc_actors +
    mesh_actors] that raises. *)
Theorem generate_actors_tree_None_TypeError pc_actors pc_actor_ids
    mesh_actors mesh_actor_ids :
  pc_actors = None ∨ mesh_actors = None →
  ∃ what,
    generate_actors_tree pc_actors pc_actor_ids mesh_actors mesh_actor_ids
      = inl (TypeError what)
    ∧ ((is_Some pc_actors → is_Some pc_actor_ids) →
       (is_Some mesh_actors → is_Some mesh_actor_ids) →
       add pc_actors mesh_actors = inl (TypeError what)).
Proof.
  intros Hnone.
  destruct pc_actors as [pa|], mesh_actors as [ma|];
    [destruct Hnone; discriminate| | |].
  - (* only the meshes are None *)
    destruct pc_actor_ids as [pn|].
    + exists CanOnlyConcatenate. done.
    + exists NotIterable. split; [done|]. intros Hpn _.
      by destruct (Hpn ltac:(eauto)) as [? [=]].
  - (* only the point clouds are None *)
    destruct mesh_actor_ids as [mn|].
    + exists UnsupportedOperand. done.
    + exists NotIterable. split; [done|]. intros _ Hmn.
      by destruct (Hmn ltac:(eauto)) as [? [=]].
  - exists UnsupportedOperand. done.
Qed.

Lemma generate_actors_tree_None_TypeError_witness :
  ∃ what,
    generate_actors_tree (Some [Actor 0 false]) (Some ["pc"]) None None
      = inl (TypeError what)
    ∧ ((is_Some (Some [Actor 0 false]) → is_Some (Some ["pc"])) →
       (is_Some (@None (list actor)) → is_Some (@None (list string))) →
       add (Some [Actor 0 false]) None = inl (TypeError what)).
Proof.
  apply (generate_actors_tree_None_TypeError (Some [Actor 0 false])
           (Some ["pc"]) None None).
  right. reflexivity.
Defined.

(** Conversely, a normal return needs both lists of actors. *)
Lemma generate_actors_tree_returns pc_actors pc_actor_ids mesh_actors
    mesh_actor_ids r :
  generate_actors_tree pc_actors pc_actor_ids mesh_actors mesh_actor_ids
    = inr r →
  is_Some pc_actors ∧ is_Some mesh_actors.
Proof.
  destruct pc_actors as [pa|], mesh_actors as [ma|]; [by eauto|..].
  - destruct pc_actor_ids; discriminate.
  - destruct mesh_actor_ids; discriminate.
  - discriminate.
Qed.

End PvActorsSpec.

(** ** The asset manager of dataset_manager.py *)

Module DatasetManagerSpec.
Import Py DatasetManager.

Section manager.
Context `{Host}.

Lemma get_assets_fold (self : LocalFileManager) (keys : list string)
    (acc : gmap string (option string)) (k : string) :
  foldl (λ _assets key, <[key := _assests self !! key]> _assets) acc keys !! k
  = if decide (k ∈ keys) then Some (_assests self !! k) else acc !! k.
Proof.
  revert acc. induction keys as [|key keys IH]; intros acc; cbn.
  - by rewrite decide_False by apply not_elem_of_nil.
  - rewrite IH. destruct (decide (k ∈ keys)) as [Hin|Hnin].
    + by rewrite decide_True by (by right).
    + destruct (decide (k = key)) as [->|Hne].
      * rewrite decide_True by left. by rewrite lookup_insert_eq.
      * rewrite decide_False by (by rewrite elem_of_cons; intros [?|?]).
        by rewrite lookup_insert_ne.
Qed.

(** With keys given, the result holds exactly those keys. *)
Lemma get_assets_lookup (self : LocalFileManager) (keys : list string)
    (k : string) :
  k ∈ keys → get_assets self keys !! k = Some (_assests self !! k).
Proof.
  intros Hin. unfold get_assets.
  rewrite bool_decide_eq_false_2 by (by destruct keys; [inversion Hin|]).
  by rewrite get_assets_fold, decide_True.
Qed.

Lemma file_url_result (self : LocalFileManager) (key file_path : option string) :
  (file_url self key file_path).1
  = (p <- _to_path self (from_option Some key file_path);; to_url p).
Proof.
  unfold file_url.
  destruct file_path as [fp|]; cbn;
    (match goal with |- context [Py.bind ?m ?k] => destruct (Py.bind m k) end);
    try done.
  by destruct key.
Qed.

(** Claim C9, as the code has it. For a key that has not been stored, the
    [[]] notation returns None, [get_assets] maps the key to None, and the
    attribute notation returns None when the key is not the name of an
    attribute the instance or its class already has ([assets], [_root],
    [_assests], the methods, the attributes of [object]). *)
Theorem lookup_unstored_is_None (self : LocalFileManager) (key : string) :
  _assests self !! key = None →
  __getitem__ self key = None
  ∧ (regular_attribute key = false → getattr self key = FromGetattr None)
  ∧ (∀ keys, key ∈ keys → get_assets self keys !! key = Some None).
Proof.
  intros Hkey. split; [done|]. split.
  - unfold regular_attribute, getattr, __getattr__.
    rewrite !orb_false_iff. intros ((((-> & ->) & ->) & ->) & ->).
    by rewrite Hkey.
  - intros keys Hin. by rewrite get_assets_lookup, Hkey.
Qed.

(** Claim C10. With [file_path] None the key is the path, the assets stay
    as they are and the call returns what [to_url] gives; with a
    [file_path], a returned URL is stored under [key] and every other key
    keeps its value. *)
Theorem file_url_assets (self : LocalFileManager) (key : string) :
  file_url self (Some key) None
    = (p <- _to_path self (Some key);; to_url p, self)
  ∧ ∀ fp data,
      (file_url self (Some key) (Some fp)).1 = inr data →
      (p <- _to_path self (Some fp);; to_url p) = inr data
      ∧ _assests (file_url self (Some key) (Some fp)).2 !! key = Some data
      ∧ ∀ k, k ≠ key →
          _assests (file_url self (Some key) (Some fp)).2 !! k
          = _assests self !! k.
Proof.
  split.
  - unfold file_url. by destruct (Py.bind _ _).
  - intros fp data. rewrite file_url_result. cbn [from_option].
    unfold file_url. intros ->. cbn.
    split; [done|]. split; [apply lookup_insert_eq|].
    intros k Hk. by apply lookup_insert_ne.
Qed.

(** A failing call leaves the assets as they were. *)
Lemma file_url_raises (self : LocalFileManager) key file_path e :
  (file_url self key file_path).1 = inl e →
  (file_url self key file_path).2 = self.
Proof.
  unfold file_url. destruct file_path as [fp|];
    by destruct (Py.bind _ _); [|destruct key].
Qed.

End manager.

(** The claim as written fails for the attribute notation: on a fresh
    manager nothing is stored under "assets", and [manager.assets] is the
    (empty) dict of the property, not None. *)
Lemma getattr_assets_is_property :
  ∃ self,
    __init__ (H := sample_host) "/srv/app/hi.txt" = inr self
    ∧ _assests self !! "assets" = None
    ∧ getattr (H := sample_host) self "assets" = PropertyAssets ∅
    ∧ getattr (H := sample_host) self "assets" ≠ FromGetattr None.
Proof. exists sample_manager. by repeat split. Qed.

Lemma lookup_unstored_is_None_witness :
  let self := (dir_url (H := sample_host) sample_manager
                 (Some "drosophila_E7_9h")
                 (Some "./dataset/drosophila_E7_9h")).2 in
  __getitem__ self "logo" = None
  ∧ (regular_attribute (H := sample_host) "logo" = false →
     getattr (H := sample_host) self "logo" = FromGetattr None)
  ∧ (∀ keys, "logo" ∈ keys → get_assets self keys !! "logo" = Some None).
Proof.
  intros self.
  apply (lookup_unstored_is_None (H := sample_host) self "logo").
  reflexivity.
Defined.

Lemma file_url_assets_witness :
  let self := sample_manager in
  let after := file_url (H := sample_host) self (Some "hi") (Some "hi.txt") in
  after.1 = inr "data:text/plain;base64,aGk="
  ∧ _assests after.2 !! "hi" = Some "data:text/plain;base64,aGk="
  ∧ ∀ k, k ≠ "hi" → _assests after.2 !! k = _assests self !! k.
Proof.
  intros self after. split; [reflexivity|].
  apply (proj2 (file_url_assets (H := sample_host) self "hi") "hi.txt"
           "data:text/plain;base64,aGk=").
  reflexivity.
Defined.

End DatasetManagerSpec.

(** ** The reduced AnnData of anndata_preprocess.py *)

Module AnndataPreprocessSpec.
Import Py PySpec AnndataPreprocess.

Lemma to_sparse_issparse m : issparse (to_sparse m) = true.
Proof.
  unfold to_sparse. destruct (issparse m) eqn:E; [exact E|reflexivity].
Qed.

Lemma to_sparse_shape m : shape (to_sparse m) = shape m.
Proof. unfold to_sparse. by destruct (issparse m). Qed.

Section preprocess.
Context `{Dynamo} `{Disk}.

(** The shape of a successful run: the AnnData [mid] that the matrices
    step leaves (the input itself when [X_log1p] names a layer, what dynamo
    returned otherwise), and the three values the reduced object holds. *)
Lemma anndata_preprocess_inr fs path output_path X_counts X_log1p spatial_key
    out fs' :
  anndata_preprocess fs path output_path X_counts X_log1p spatial_key
    = inr (out, fs') →
  ∃ adata counts_layer mid log1p spatial_coords,
    fs !! path = Some adata
    ∧ layers adata !! X_counts = Some counts_layer
    ∧ match X_log1p with
      | Some key =>
          mid = adata
          ∧ ∃ log_layer, layers adata !! key = Some log_layer
                         ∧ log1p = to_sparse log_layer
      | None =>
          normalize_cell_expr_by_size_factors
            (set_X adata (copy (to_sparse counts_layer))) = inr mid
          ∧ ∃ x, X mid = Some x ∧ log1p = csr_matrix (copy x)
      end
    ∧ obsm mid !! spatial_key = Some spatial_coords
    ∧ out = set_obsm
              (set_layer
                 (set_X (del_uns_layers_obsm_obsp_varm mid)
                    (to_sparse counts_layer))
                 "X_log1p" log1p)
              "spatial" spatial_coords
    ∧ write_h5ad fs out output_path = inr fs'
    ∧ fs' = <[output_path := out]> fs.
Proof.
  unfold anndata_preprocess, read_h5ad. intros Hrun.
  destruct (fs !! path) as [adata|] eqn:Hread; [|done]. cbn in Hrun.
  apply bind_inr in Hrun as (counts_layer & Hc%getitem_inr & Hrun).
  apply bind_inr in Hrun as ([mid log1p] & Hmid & Hrun).
  apply bind_inr in Hrun as (spatial_coords & Hs%getitem_inr & Hrun).
  apply bind_inr in Hrun as (fs1 & Hwrite & [= <- <-]).
  exists adata, counts_layer, mid, log1p, spatial_coords.
  assert (fs1 = <[output_path := set_obsm
              (set_layer
                 (set_X (del_uns_layers_obsm_obsp_varm mid)
                    (to_sparse counts_layer))
                 "X_log1p" log1p)
              "spatial" spatial_coords]> fs) as Hfs.
  { unfold write_h5ad in Hwrite. destruct (writable output_path); [|done].
    by injection Hwrite as <-. }
  repeat split; try done.
  destruct X_log1p as [key|].
  - apply bind_inr in Hmid as (log_layer & Hl%getitem_inr & [= <- <-]).
    eauto.
  - apply bind_inr in Hmid as (a1 & Hnorm & Hx).
    destruct (X a1) as [x|] eqn:HX; [|done]. injection Hx as <- <-.
    eauto.
Qed.

(** With a log1p layer named, the layers and coordinates present and a
    place to write, the call returns. *)
Lemma anndata_preprocess_returns fs path output_path X_counts key spatial_key
    adata counts_layer log_layer spatial_coords :
  fs !! path = Some adata →
  layers adata !! X_counts = Some counts_layer →
  layers adata !! key = Some log_layer →
  obsm adata !! spatial_key = Some spatial_coords →
  writable output_path = true →
  ∃ out,
    anndata_preprocess fs path output_path X_counts (Some key) spatial_key
    = inr (out, <[output_path := out]> fs).
Proof.
  intros Hread Hc Hl Hs Hw. eexists.
  unfold anndata_preprocess, read_h5ad, write_h5ad, getitem.
  rewrite Hread. cbn. rewrite Hc. cbn. rewrite Hl. cbn. rewrite Hs. cbn.
  rewrite Hw. reflexivity.
Qed.

(** Claim C3. For a valid data set with N observations and
    three-dimensional coordinates, the returned object has N observations,
    its [obsm["spatial"]] has shape (N, 3), and its [X] and its
    [layers["X_log1p"]] are sparse and of one shape. *)
Theorem anndata_preprocess_shapes fs path output_path X_counts X_log1p
    spatial_key adata out fs' :
  fs !! path = Some adata →
  valid adata →
  spatial_3d adata spatial_key →
  normalize_frame →
  anndata_preprocess fs path output_path X_counts X_log1p spatial_key
    = inr (out, fs') →
  n_obs out = n_obs adata
  ∧ (∃ s, obsm out !! "spatial" = Some s ∧ shape s = (n_obs adata, 3))
  ∧ (∃ x l, X out = Some x ∧ layers out !! "X_log1p" = Some l
            ∧ issparse x = true ∧ issparse l = true ∧ shape x = shape l).
Proof.
  intros Hread (HvX & Hvl & Hvo) H3d Hframe Hrun.
  apply anndata_preprocess_inr in Hrun
    as (adata0 & counts_layer & mid & log1p & spatial_coords
        & Hread0 & Hc & Hmid & Hs & -> & _ & ->).
  rewrite Hread in Hread0. injection Hread0 as <-.
  assert (index (obs mid) = index (obs adata) ∧ obsm mid = obsm adata
          ∧ issparse log1p = true
          ∧ shape log1p = shape counts_layer) as (Hidx & Hobsm & Hsp & Hsh).
  { destruct X_log1p as [key|].
    - destruct Hmid as (-> & log_layer & Hl & ->).
      repeat split; [apply to_sparse_issparse|].
      rewrite to_sparse_shape.
      by rewrite (Hvl _ _ Hl), (Hvl _ _ Hc).
    - destruct Hmid as (Hnorm & x & Hx & ->).
      destruct (Hframe _ _ Hnorm) as (Hidx & Hobsm & HX).
      destruct (HX _ Hx) as (x0 & [= <-] & Hshape).
      repeat split; [done..|]. unfold csr_matrix, copy in *. cbn.
      rewrite Hshape. apply to_sparse_shape. }
  rewrite Hobsm in Hs. split; [|split].
  - unfold n_obs. cbn. by rewrite Hidx.
  - exists spatial_coords. cbn. split; [apply lookup_insert_eq|].
    pose proof (Hvo _ _ Hs) as Hrows. pose proof (H3d _ Hs) as Hcols.
    cbn in Hrows. destruct (shape spatial_coords) as [r c]. cbn in *.
    by subst.
  - exists (to_sparse counts_layer), log1p. cbn.
    split; [done|]. split; [apply lookup_insert_eq|].
    split; [apply to_sparse_issparse|]. split; [done|].
    by rewrite to_sparse_shape.
Qed.

(** Claim C4, as the code has it. The object returned is the object
    written. Its [X] is the counts layer made sparse, [layers] holds
    "X_log1p" alone (the named layer made sparse or, without a name, the
    [X] that dynamo normalised, as CSR), [obsm] holds "spatial" alone (the
    array under the spatial key), and [uns], [obsp] and [varm] are empty.
    [obs], [var] and [varp] are not reduced: they are those of the input
    when [X_log1p] names a layer, and those of the object that dynamo's
    normalisation left when [X_log1p] is None. *)
Theorem anndata_preprocess_reduced fs path output_path X_counts X_log1p
    spatial_key adata out fs' :
  fs !! path = Some adata →
  anndata_preprocess fs path output_path X_counts X_log1p spatial_key
    = inr (out, fs') →
  ∃ counts_layer mid log1p spatial_coords,
    layers adata !! X_counts = Some counts_layer
    ∧ match X_log1p with
      | Some key =>
          mid = adata
          ∧ ∃ log_layer, layers adata !! key = Some log_layer
                         ∧ log1p = to_sparse log_layer
      | None =>
          normalize_cell_expr_by_size_factors
            (set_X adata (copy (to_sparse counts_layer))) = inr mid
          ∧ ∃ x, X mid = Some x ∧ log1p = csr_matrix (copy x)
      end
    ∧ obsm mid !! spatial_key = Some spatial_coords
    ∧ write_h5ad fs out output_path = inr fs'
    ∧ fs' !! output_path = Some out
    ∧ X out = Some (to_sparse counts_layer)
    ∧ layers out = {[ "X_log1p" := log1p ]}
    ∧ obsm out = {[ "spatial" := spatial_coords ]}
    ∧ uns out = ∅ ∧ obsp out = ∅ ∧ varm out = ∅
    ∧ obs out = obs mid ∧ var out = var mid ∧ varp out = varp mid.
Proof.
  intros Hread Hrun.
  apply anndata_preprocess_inr in Hrun
    as (adata0 & counts_layer & mid & log1p & spatial_coords
        & Hread0 & Hc & Hmid & Hs & Hout & Hwrite & ->).
  rewrite Hread in Hread0. injection Hread0 as <-.
  exists counts_layer, mid, log1p, spatial_coords.
  do 4 (split; [done|]). split; [apply lookup_insert_eq|].
  by rewrite Hout.
Qed.

End preprocess.

(** The claim as written fails when [X_log1p] is None: dynamo's
    normalisation records its size factors in [obs], and the object
    returned keeps that column. It also keeps the gene-by-gene matrix of
    [varp], so it holds more than counts, log1p and coordinates. *)
Lemma anndata_preprocess_obs_changed :
  ∃ out fs',
    anndata_preprocess (H := sample_dynamo) (H0 := sample_disk) sample_fs
      "E7_9h_cellbin.h5ad" "E7_9h_cellbin_new.h5ad" "X_counts" None
      "3d_align_spatial"
    = inr (out, fs')
    ∧ columns (obs sample_adata) !! "Size_Factor" = None
    ∧ columns (obs out) !! "Size_Factor" = Some [2%Q; 2%Q]
    ∧ obs out ≠ obs sample_adata
    ∧ is_Some (varp out !! "gene_corr").
Proof.
  eexists _, _. split; [reflexivity|]. split; [reflexivity|].
  split; [reflexivity|]. split; [|by eexists]. intros Heq.
  apply (f_equal (λ o, columns o !! "Size_Factor")) in Heq.
  discriminate Heq.
Qed.

Lemma sample_adata_valid : valid sample_adata.
Proof.
  split; [done|]. split.
  - intros k m. unfold sample_adata; cbn.
    rewrite lookup_insert_Some, lookup_singleton_Some.
    by intros [[_ <-]|[_ [_ <-]]].
  - intros k m. unfold sample_adata; cbn.
    rewrite lookup_insert_Some, lookup_singleton_Some.
    by intros [[_ <-]|[_ [_ <-]]].
Qed.

Lemma sample_dynamo_frame : normalize_frame (H := sample_dynamo).
Proof.
  intros a a'. cbn. destruct (X a) as [x|] eqn:HX; [|done].
  intros [= <-]. cbn. repeat split. intros x' [= <-]. eauto.
Qed.

Lemma anndata_preprocess_shapes_witness :
  ∃ out fs',
    anndata_preprocess (H := sample_dynamo) (H0 := sample_disk) sample_fs
      "E7_9h_cellbin.h5ad" "E7_9h_cellbin_new.h5ad" "X_counts"
      (Some "X_log1p") "3d_align_spatial"
    = inr (out, fs')
    ∧ n_obs out = n_obs sample_adata
    ∧ (∃ s, obsm out !! "spatial" = Some s
            ∧ shape s = (n_obs sample_adata, 3))
    ∧ (∃ x l, X out = Some x ∧ layers out !! "X_log1p" = Some l
              ∧ issparse x = true ∧ issparse l = true ∧ shape x = shape l).
Proof.
  eexists _, _. split; [reflexivity|].
  eapply (anndata_preprocess_shapes (H := sample_dynamo)
            (H0 := sample_disk) sample_fs "E7_9h_cellbin.h5ad" "E7_9h_cellbin_new.h5ad" "X_counts"
            (Some "X_log1p") "3d_align_spatial" sample_adata).
  - reflexivity.
  - apply sample_adata_valid.
  - intros m. unfold sample_adata; cbn.
    rewrite lookup_insert_Some, lookup_singleton_Some.
    by intros [[_ <-]|[_ [[=] _]]].
  - apply sample_dynamo_frame.
  - reflexivity.
Defined.

Lemma anndata_preprocess_reduced_witness :
  ∃ out fs' counts_layer log_layer spatial_coords,
    anndata_preprocess (H := sample_dynamo) (H0 := sample_disk) sample_fs
      "E7_9h_cellbin.h5ad" "E7_9h_cellbin_new.h5ad" "X_counts"
      (Some "X_log1p") "3d_align_spatial"
    = inr (out, fs')
    ∧ layers sample_adata !! "X_counts" = Some counts_layer
    ∧ layers sample_adata !! "X_log1p" = Some log_layer
    ∧ obsm sample_adata !! "3d_align_spatial" = Some spatial_coords
    ∧ fs' !! "E7_9h_cellbin_new.h5ad" = Some out
    ∧ X out = Some (to_sparse counts_layer)
    ∧ layers out = {[ "X_log1p" := to_sparse log_layer ]}
    ∧ obsm out = {[ "spatial" := spatial_coords ]}
    ∧ uns out = ∅ ∧ obsp out = ∅ ∧ varm out = ∅
    ∧ obs out = obs sample_adata ∧ var out = var sample_adata
    ∧ varp out = varp sample_adata.
Proof.
  eexists _, _.
  destruct (anndata_preprocess_reduced (H := sample_dynamo)
              (H0 := sample_disk) sample_fs "E7_9h_cellbin.h5ad"
              "E7_9h_cellbin_new.h5ad" "X_counts" (Some "X_log1p")
              "3d_align_spatial" sample_adata _ _ eq_refl eq_refl)
    as (counts_layer & mid & log1p & spatial_coords & Hc
        & (-> & log_layer & Hl & ->) & Hs & _ & Hfs & HX & Hlayers & Hobsm
        & Huns & Hobsp & Hvarm & Hobs & Hvar & Hvarp).
  exists counts_layer, log_layer, spatial_coords.
  split; [reflexivity|]. by repeat split.
Defined.

End AnndataPreprocessSpec.

(** ** The stages of pv_morphogenesis.py *)

Module PvMorphogenesisSpec.
Import Py PySpec PvMorphogenesis.

(** *** The time vector *)

Lemma flats_of_elem fate x :
  x ∈ flats_of fate →
  (x ≤ 3000)%Z.
Proof.
  unfold flats_of. rewrite merge_sort_Permutation, list_elem_of_filter.
  by intros [? _].
Qed.

Lemma flats_of_zero fate : 0%Z ∈ flats_of fate.
Proof.
  unfold flats_of. rewrite merge_sort_Permutation, list_elem_of_filter.
  split; [lia|left].
Qed.

Lemma foldl_max_spec (xs : list Z) (x : Z) :
  foldl Z.max x xs ∈ x :: xs
  ∧ ∀ y, y ∈ x :: xs → (y ≤ foldl Z.max x xs)%Z.
Proof.
  revert x. induction xs as [|a xs IH]; intros x; cbn.
  - split; [left|]. intros y ->%list_elem_of_singleton. lia.
  - destruct (IH (Z.max x a)) as [Hin Hub]. split.
    + apply elem_of_cons in Hin as [Heq|Hin]; [|by do 2 right].
      rewrite Heq. destruct (Z.max_spec x a) as [[_ ->]|[_ ->]];
        [right; left|left].
    + intros y Hy. apply elem_of_cons in Hy as [->|Hy].
      * etrans; [|apply Hub; left]. lia.
      * apply elem_of_cons in Hy as [->|Hy].
        -- etrans; [|apply Hub; left]. lia.
        -- apply Hub. by right.
Qed.

(** [max(flats)] never fails, and lies between 0 and 3000. *)
Lemma py_max_flats fate :
  ∃ m, py_max (flats_of fate) = inr m ∧ (0 ≤ m ≤ 3000)%Z.
Proof.
  pose proof (flats_of_zero fate) as H0.
  pose proof (flats_of_elem fate) as Hle.
  destruct (flats_of fate) as [|x xs]; [by apply not_elem_of_nil in H0|].
  cbn. eexists. split; [done|].
  destruct (foldl_max_spec xs x) as [Hin Hub]. split; [by apply Hub|].
  by apply Hle.
Qed.

Lemma time_vec_of_spec fate :
  ∃ m, (0 ≤ m ≤ 3000)%Z
       ∧ py_max (flats_of fate) = inr m
       ∧ time_vec_of fate = inr (time_at m <$> seq 0 100).
Proof.
  destruct (py_max_flats fate) as (m & Hm & Hrange).
  exists m. split; [done|]. split; [done|].
  unfold time_vec_of. rewrite Hm. reflexivity.
Qed.

Lemma ln_10_pos : (0 < ln 10)%R.
Proof. rewrite <- ln_1. apply ln_increasing; lra. Qed.

Lemma log10_nonneg (m : Z) : (0 ≤ m)%Z → (0 <= log10 (IZR (m + 1)))%R.
Proof.
  intros Hm. unfold log10.
  assert (1 <= IZR (m + 1))%R as H1 by (apply IZR_le; lia).
  assert (0 <= ln (IZR (m + 1)))%R as Hln.
  { destruct H1 as [Hlt| <-]; [|by rewrite ln_1; lra].
    left. rewrite <- ln_1. apply ln_increasing; lra. }
  apply Rmult_le_pos; [done|]. left. apply Rinv_0_lt_compat, ln_10_pos.
Qed.

Lemma log10_pos (m : Z) : (1 ≤ m)%Z → (0 < log10 (IZR (m + 1)))%R.
Proof.
  intros Hm. unfold log10.
  assert (1 < IZR (m + 1))%R as H1 by (apply IZR_lt; lia).
  apply Rmult_lt_0_compat; [|apply Rinv_0_lt_compat, ln_10_pos].
  rewrite <- ln_1. apply ln_increasing; lra.
Qed.

Lemma INR_99_pos : (0 < INR (100 - 1))%R.
Proof. apply (lt_INR 0). cbn. lia. Qed.

Lemma time_at_mono (m : Z) (i j : nat) :
  (0 ≤ m)%Z → i ≤ j → (time_at m i <= time_at m j)%R.
Proof.
  intros Hm Hij. unfold time_at.
  apply Rplus_le_compat_r, Rle_Rpower; [lra|].
  apply Rplus_le_compat_r, Rmult_le_compat_r; [|by apply le_INR].
  apply Rmult_le_pos; [|left; apply Rinv_0_lt_compat, INR_99_pos].
  pose proof (log10_nonneg m Hm). lra.
Qed.

Lemma time_at_strict (m : Z) (i j : nat) :
  (1 ≤ m)%Z → i < j → (time_at m i < time_at m j)%R.
Proof.
  intros Hm Hij. unfold time_at.
  apply Rplus_lt_compat_r, Rpower_lt; [lra|].
  apply Rplus_lt_compat_r, Rmult_lt_compat_r; [|by apply lt_INR].
  apply Rmult_lt_0_compat; [|apply Rinv_0_lt_compat, INR_99_pos].
  pose proof (log10_pos m Hm). lra.
Qed.

(** The first time value is 0: the vector starts at [10 ** 0 - 1]. *)
Lemma time_at_0 (m : Z) : time_at m 0 = 0%R.
Proof.
  unfold time_at. cbn [INR]. rewrite Rmult_0_l, Rplus_0_l.
  rewrite Rpower_O by lra. lra.
Qed.

Section stages.
Context `{Libraries}.

(** Every pass of the loop appends one list of positions, one position
    for each cell. *)
Lemma stage_loop_appends f time_vec steps pts acc out :
  stage_loop f time_vec steps pts acc = inr out →
  ∃ new,
    out = acc ++ new
    ∧ length new = length steps
    ∧ Forall (λ s, ∃ ps, s = Positions ps ∧ length ps = length pts) new.
Proof.
  revert pts acc. induction steps as [|i steps IH]; intros pts acc; cbn.
  - intros [= <-]. exists []. by rewrite app_nil_r.
  - destruct (time_vec !! i) as [dt|]; [|done]. cbn.
    destruct (mapM _ pts) as [e|pts'] eqn:Hpts; [done|]. cbn.
    intros Hrest. apply mapM_length in Hpts.
    apply IH in Hrest as (new & -> & Hlen & Hall).
    exists (Positions pts' :: new). split; [by rewrite <- app_assoc|].
    split; [cbn; by rewrite Hlen|].
    constructor; [by eexists|].
    eapply Forall_impl; [exact Hall|]. cbn.
    intros s (ps & -> & Hps). exists ps. by rewrite Hps, Hpts.
Qed.

Lemma stage_loop_returns f time_vec steps pts acc :
  (∀ i, i ∈ steps → is_Some (time_vec !! i)) →
  (∀ x dt, ∃ rows, odeint f x [0%R; dt] = inr rows ∧ 2 ≤ length rows) →
  ∃ out, stage_loop f time_vec steps pts acc = inr out.
Proof.
  intros Hsteps Hode. revert pts acc.
  induction steps as [|i steps IH]; intros pts acc; cbn; [by eexists|].
  destruct (Hsteps i) as [dt ->]; [left|]. cbn.
  destruct (mapM_returns (λ cur_pts, displace_1 f cur_pts dt) pts)
    as [pts' ->].
  { intros x. unfold displace_1. destruct (Hode x dt) as (rows & -> & Hlen).
    cbn. destruct rows as [|r0 [|r1 rows]]; cbn in *; [lia..|]. by eexists. }
  cbn. apply IH. intros j Hj. apply Hsteps. by right.
Qed.

(** The run as the composition of its steps, when it returns. *)
Lemma morphogenesis_inr args m1 m2 m3 stages_X :
  morphogenesis args = inr (m1, m2, m3, stages_X) →
  ∃ st an time_vec func,
    import_spateo = inr st
    ∧ tdr_analysis st args = inr an
    ∧ time_vec_of (fate_t an) = inr time_vec
    ∧ vf_from_adata an = inr func
    ∧ stage_loop (λ x _, func x) time_vec (seq 0 100) (init_states an)
        [ObsIndex (obs_index an)] = inr stages_X.
Proof.
  unfold morphogenesis. destruct import_spateo as [[]|st]; try done.
  intros (an & Han & Hrun)%bind_inr. unfold cell_stages in Hrun.
  apply bind_inr in Hrun as (time_vec & Htv & Hrun).
  apply bind_inr in Hrun as (func & Hvf & Hrun).
  apply bind_inr in Hrun as (out & Hloop & [= _ _ _ <-]).
  by exists st, an, time_vec, func.
Qed.

(** With spateo importable and the libraries doing their part, the run
    returns. *)
Lemma morphogenesis_returns args st an func :
  import_spateo = inr st →
  tdr_analysis st args = inr an →
  vf_from_adata an = inr func →
  (∀ f x dt, ∃ rows, odeint f x [0%R; dt] = inr rows ∧ 2 ≤ length rows) →
  ∃ stages_X,
    morphogenesis args
    = inr (analysed_pc_model an, pc_vectors an, trajectory_model an, stages_X).
Proof.
  intros Himp Han Hvf Hode. unfold morphogenesis. rewrite Himp, Han.
  cbn [Py.bind]. unfold cell_stages.
  destruct (time_vec_of_spec (fate_t an)) as (m & _ & _ & ->).
  cbn [Py.bind]. rewrite Hvf. cbn [Py.bind].
  destruct (stage_loop_returns (λ x _, func x) (time_at m <$> seq 0 100)
              (seq 0 100) (init_states an) [ObsIndex (obs_index an)])
    as [out ->]; [|by apply Hode|by eexists].
  intros i Hi%elem_of_seq. apply lookup_lt_is_Some.
  rewrite length_fmap, length_seq. lia.
Qed.

(** Claim C2. The [stages_X] of a run that returns is the list of the
    observation names followed by exactly 100 snapshots of positions, each
    with one position for every cell that the analysis left in the initial
    states. *)
Theorem morphogenesis_stage_count args m1 m2 m3 stages_X :
  morphogenesis args = inr (m1, m2, m3, stages_X) →
  ∃ st an snapshots,
    import_spateo = inr st
    ∧ tdr_analysis st args = inr an
    ∧ stages_X = ObsIndex (obs_index an) :: snapshots
    ∧ length snapshots = 100
    ∧ Forall (λ s, ∃ ps, s = Positions ps
                         ∧ length ps = length (init_states an)) snapshots
    ∧ length (filter (λ s, is_positions s = true) stages_X) = 100.
Proof.
  intros (st & an & time_vec & func & Himp & Han & _ & _ & Hloop)
    %morphogenesis_inr.
  apply stage_loop_appends in Hloop as (new & -> & Hlen & Hall).
  rewrite length_seq in Hlen.
  exists st, an, new.
  do 5 (split; [done|]).
  change ([ObsIndex (obs_index an)] ++ new)
    with (ObsIndex (obs_index an) :: new).
  rewrite filter_cons_False by done.
  rewrite <- Hlen. f_equal. clear Hlen.
  induction Hall as [|s new (ps & -> & _) _ IH]; [done|].
  by rewrite filter_cons_True, IH.
Qed.




End stages.

(** Claim C6. The time vector is always computed, has 100 values, starts
    at 0 and never decreases; it increases strictly as soon as a fate time
    of at least 1 (and at most 3000) exists. *)
Theorem time_vec_monotone (fate : list (Z * list R)) :
  ∃ time_vec m,
    time_vec_of fate = inr time_vec
    ∧ py_max (flats_of fate) = inr m
    ∧ length time_vec = 100
    ∧ time_vec !! 0 = Some 0%R
    ∧ (∀ i j a b, i ≤ j → time_vec !! i = Some a → time_vec !! j = Some b →
         (a <= b)%R)
    ∧ ((1 ≤ m)%Z →
       ∀ i j a b, i < j → time_vec !! i = Some a → time_vec !! j = Some b →
         (a < b)%R).
Proof.
  destruct (time_vec_of_spec fate) as (m & [Hm _] & Hmax & Htv).
  exists (time_at m <$> seq 0 100), m.
  do 2 (split; [done|]). split; [by rewrite length_fmap, length_seq|].
  split; [cbn [fmap list_fmap seq lookup list_lookup]; by rewrite time_at_0|].
  assert (∀ i a, (time_at m <$> seq 0 100) !! i = Some a → a = time_at m i)
    as Hat.
  { intros i a. rewrite list_lookup_fmap.
    destruct (seq 0 100 !! i) as [k|] eqn:Hk; [|done].
    apply lookup_seq in Hk as [-> _]. by intros [= <-]. }
  split.
  - intros i j a b Hij ->%Hat ->%Hat. by apply time_at_mono.
  - intros Hm1 i j a b Hij ->%Hat ->%Hat. by apply time_at_strict.
Qed.

Lemma sample_odeint_rows f x dt :
  ∃ rows, odeint (Libraries := sample_libraries) f x [0%R; dt] = inr rows
          ∧ 2 ≤ length rows.
Proof. eexists. split; [reflexivity|]. cbn. lia. Qed.

Lemma morphogenesis_stage_count_witness :
  ∃ m1 m2 m3 stages_X snapshots,
    morphogenesis (H := sample_libraries) sample_arguments
      = inr (m1, m2, m3, stages_X)
    ∧ stages_X = ObsIndex ["cell0"; "cell1"] :: snapshots
    ∧ length snapshots = 100
    ∧ Forall (λ s, ∃ ps, s = Positions ps ∧ length ps = 2) snapshots
    ∧ length (filter (λ s, is_positions s = true) stages_X) = 100.
Proof.
  destruct (morphogenesis_returns (H := sample_libraries) sample_arguments
              _ _ _ eq_refl eq_refl eq_refl sample_odeint_rows)
    as [stages_X Hrun].
  destruct (morphogenesis_stage_count (H := sample_libraries) _ _ _ _ _ Hrun)
    as (st & an & snapshots & Himp & Han & Hconcl).
  injection Himp as <-. injection Han as <-.
  eexists _, _, _, stages_X, snapshots. split; [exact Hrun|].
  exact Hconcl.
Defined.



End PvMorphogenesisSpec.

(** ** More on the actor tree and on the actors of a sample *)

Module PvActorsMore.
Import Py PySpec PvActors PvActorsSpec.

Lemma count_visible_true_group_tree names base_id :
  count_visible true (group_tree names base_id)
  = match names with [] => 0 | _ :: _ => 1 end.
Proof.
  destruct names as [|nm names]; [done|].
  by destruct (count_visible_group_tree (nm :: names) base_id).
Qed.

(** The sizes of the result for any lists, empty ones too: one actor per
    given actor, the names in their order, one entry per name, and one
    visible entry for each group that has a name. *)
Theorem generate_actors_tree_sizes pa pn ma mn :
  ∃ acts ids tree,
    generate_actors_tree (Some pa) (Some pn) (Some ma) (Some mn)
      = inr (acts, ids, tree)
    ∧ length acts = length pa + length ma
    ∧ ids = pn ++ mn
    ∧ length tree = length pn + length mn
    ∧ count_visible true tree
      = match pn with [] => 0 | _ :: _ => 1 end
        + match mn with [] => 0 | _ :: _ => 1 end.
Proof.
  eexists _, _, _. split; [apply generate_actors_tree_lists|].
  split; [by rewrite length_fmap, length_app|]. split; [done|].
  split; [by rewrite length_app, !group_tree_length|].
  by rewrite count_visible_app, !count_visible_true_group_tree.
Qed.

Lemma set_visibilities_other i actors flags k :
  k ∉ actor_key <$> actors →
  set_visibilities i actors flags !! k = flags !! k.
Proof.
  revert i flags. induction actors as [|a actors IH]; intros i flags Hk; [done|].
  cbn in *. apply not_elem_of_cons in Hk as [Hne Hk].
  rewrite IH by done. unfold SetVisibility. by rewrite lookup_insert_ne.
Qed.

Lemma set_visibilities_at i actors flags j a :
  NoDup (actor_key <$> actors) →
  actors !! j = Some a →
  set_visibilities i actors flags !! actor_key a
  = Some (bool_decide (i + j = 0)).
Proof.
  revert i flags j.
  induction actors as [|a0 actors IH]; intros i flags j Hnd Hj; [done|].
  cbn in Hnd. apply NoDup_cons in Hnd as [Hnotin Hnd].
  destruct j as [|j]; cbn in *.
  - injection Hj as <-. rewrite set_visibilities_other by done.
    unfold SetVisibility. rewrite lookup_insert_eq.
    by rewrite Nat.add_0_r.
  - rewrite (IH (S i) _ j) by done. do 2 f_equal.
    apply bool_decide_ext. lia.
Qed.

(** With as many names as actors in each group and no actor given twice,
    the flags of the tree are those the actors were given: entry [i] is
    visible exactly when actor [i] is, and actor [i] is the [i]-th given
    actor. *)
Theorem generate_actors_tree_visibility_agrees pa pn ma mn :
  length pa = length pn → length ma = length mn →
  NoDup (actor_key <$> (pa ++ ma)) →
  ∃ acts ids tree,
    generate_actors_tree (Some pa) (Some pn) (Some ma) (Some mn)
      = inr (acts, ids, tree)
    ∧ length acts = length tree
    ∧ ∀ i a e, acts !! i = Some a → tree !! i = Some e →
        GetVisibility a = visible e
        ∧ ∃ a0, (pa ++ ma) !! i = Some a0 ∧ actor_key a = actor_key a0.
Proof.
  intros Hp Hm Hnd. eexists _, _, _.
  split; [apply generate_actors_tree_lists|].
  split.
  { rewrite length_fmap, !length_app, !group_tree_length. lia. }
  rewrite fmap_app in Hnd. apply NoDup_app in Hnd as (Hndp & Hdisj & Hndm).
  intros i a e Ha He.
  apply list_lookup_fmap_Some in Ha as (a0 & -> & Ha0).
  split; [|exists a0; split; [done|reflexivity]]. cbn.
  destruct (decide (i < length pa)) as [Hlt|Hge].
  - rewrite lookup_app_l in Ha0 by done.
    rewrite lookup_app_l in He by (rewrite group_tree_length; lia).
    apply group_tree_lookup in He as (nm & _ & ->). cbn.
    rewrite set_visibilities_other.
    2:{ apply Hdisj, list_elem_of_fmap. exists a0. split; [done|].
        by eapply list_elem_of_lookup_2. }
    rewrite (set_visibilities_at 0 pa ∅ i a0) by done. cbn.
    by case_bool_decide.
  - rewrite lookup_app_r in Ha0 by lia.
    rewrite lookup_app_r in He by (rewrite group_tree_length; lia).
    rewrite group_tree_length, <- Hp in He.
    apply group_tree_lookup in He as (nm & _ & ->). cbn.
    rewrite (set_visibilities_at 0 ma _ (i - length pa) a0) by done. cbn.
    by case_bool_decide.
Qed.

Lemma generate_actors_tree_visibility_agrees_witness :
  ∃ acts ids tree,
    generate_actors_tree
      (Some [Actor 7 false; Actor 8 true]) (Some ["pc0"; "pc1"])
      (Some [Actor 9 false]) (Some ["mesh0"]) = inr (acts, ids, tree)
    ∧ length acts = length tree
    ∧ ∀ i a e, acts !! i = Some a → tree !! i = Some e →
        GetVisibility a = visible e
        ∧ ∃ a0, ([Actor 7 false; Actor 8 true] ++ [Actor 9 false]) !! i
                = Some a0
                ∧ actor_key a = actor_key a0.
Proof.
  apply (generate_actors_tree_visibility_agrees
           [Actor 7 false; Actor 8 true] ["pc0"; "pc1"]
           [Actor 9 false] ["mesh0"]); [reflexivity..|].
  by apply (bool_decide_unpack _).
Defined.

(** An actor given twice is one object: the second pass of the loop hides
    it, so both references read hidden while the first entry of the tree
    is visible. *)
Lemma generate_actors_tree_repeated_actor :
  generate_actors_tree (Some [Actor 7 true; Actor 7 true])
    (Some ["pc0"; "pc1"]) (Some [Actor 9 false]) (Some ["mesh0"])
  = inr ([Actor 7 false; Actor 7 false; Actor 9 true],
         ["pc0"; "pc1"; "mesh0"],
         [TreeEntry "1" "0" true "pc0"; TreeEntry "2" "1" false "pc1";
          TreeEntry "3" "0" true "mesh0"]).
Proof. reflexivity. Qed.

(** The ids are numbered from the number of point-cloud actors, not of
    their names: they are pairwise distinct exactly when there are no more
    point-cloud names than point-cloud actors, or no mesh name at all. *)
Theorem generate_actors_tree_ids_distinct_iff pa pn ma mn :
  ∃ acts ids tree,
    generate_actors_tree (Some pa) (Some pn) (Some ma) (Some mn)
      = inr (acts, ids, tree)
    ∧ (NoDup (id <$> tree) ↔ length pn ≤ length pa ∨ mn = []).
Proof.
  eexists _, _, _. split; [apply generate_actors_tree_lists|].
  rewrite fmap_app, !group_tree_ids, !seq_shift_fmap, <- fmap_app.
  rewrite (NoDup_fmap str). rewrite NoDup_app.
  split.
  - intros (_ & Hdisj & _).
    destruct (decide (length pn ≤ length pa)) as [?|Hgt]; [by left|].
    right. destruct mn as [|nm mn]; [done|]. exfalso.
    apply (Hdisj (length pa + 1)); apply elem_of_seq; cbn; lia.
  - intros Hok. split; [apply NoDup_seq|]. split; [|apply NoDup_seq].
    intros x [Hx1 Hx2]%elem_of_seq [Hx3 Hx4]%elem_of_seq.
    destruct Hok as [?| ->]; [lia|]. cbn in Hx4. lia.
Qed.

Lemma mapM_lookup {A B} (f : A → result B) (l : list A) (l' : list B) :
  mapM f l = inr l' →
  ∀ i a, l !! i = Some a → ∃ b, l' !! i = Some b ∧ f a = inr b.
Proof.
  revert l'. induction l as [|x l IH]; intros l' Hrun i a Hi; [done|].
  cbn in Hrun. apply bind_inr in Hrun as (b & Hb & Hrun).
  apply bind_inr in Hrun as (bs & Hbs & [= <-]).
  destruct i as [|i]; cbn in *.
  - injection Hi as <-. eauto.
  - by eapply IH.
Qed.

Section viewer.
Context `{Viewer}.

Lemma model_actors_inr pl models kwargs r :
  model_actors pl models kwargs = inr r →
  match models, r with
  | Some ms, Some actors =>
      mapM (λ m, add_single_model pl m kwargs) ms = inr actors
  | None, None => True
  | _, _ => False
  end.
Proof.
  unfold model_actors. destruct models as [ms|].
  - by intros (actors & Hm & [= <-])%bind_inr.
  - by intros [= <-].
Qed.

Lemma generate_actors_per_model_lengths pl pc_models mesh_models
    pc_added_kwargs mesh_added_kwargs pc_actors mesh_actors :
  generate_actors pl pc_models mesh_models pc_added_kwargs mesh_added_kwargs
    = inr (pc_actors, mesh_actors) →
  length <$> pc_actors = length <$> pc_models
  ∧ length <$> mesh_actors = length <$> mesh_models.
Proof.
  unfold generate_actors.
  intros (pa & Hpc%model_actors_inr & Hrun)%bind_inr.
  apply bind_inr in Hrun as (ma & Hmesh%model_actors_inr & [= <- <-]).
  destruct pc_models as [pms|], pa as [pacts|]; try done;
    destruct mesh_models as [mms|], ma as [macts|]; try done; cbn;
    split; try done; f_equal; by eapply mapM_length.
Qed.

(** [generate_actors] makes one actor for each model, in the order of the
    models, with the default keywords of the kind overridden by the added
    ones; a kind without models (None) has no actors (None). *)
Theorem generate_actors_per_model pl pc_models mesh_models pc_added_kwargs
    mesh_added_kwargs pc_actors mesh_actors :
  generate_actors pl pc_models mesh_models pc_added_kwargs mesh_added_kwargs
    = inr (pc_actors, mesh_actors) →
  length <$> pc_actors = length <$> pc_models
  ∧ length <$> mesh_actors = length <$> mesh_models
  ∧ (∀ ms actors i m, pc_models = Some ms → pc_actors = Some actors →
       ms !! i = Some m →
       ∃ a, actors !! i = Some a
            ∧ add_single_model pl m
                (update_kwargs {[ "model_style" := KStr "points";
                                  "model_size" := KInt 3 ]} pc_added_kwargs)
              = inr a)
  ∧ (∀ ms actors i m, mesh_models = Some ms → mesh_actors = Some actors →
       ms !! i = Some m →
       ∃ a, actors !! i = Some a
            ∧ add_single_model pl m
                (update_kwargs {[ "opacity" := KFloat (1 # 2);
                                  "model_style" := KStr "surface" ]}
                   mesh_added_kwargs)
              = inr a).
Proof.
  intros Hrun.
  destruct (generate_actors_per_model_lengths _ _ _ _ _ _ _ Hrun) as [Hlp Hlm].
  split; [done|]. split; [done|]. unfold generate_actors in Hrun.
  apply bind_inr in Hrun as (pa & Hpc%model_actors_inr & Hrun).
  apply bind_inr in Hrun as (ma & Hmesh%model_actors_inr & [= <- <-]).
  split.
  - intros ms actors i m -> -> Hi. by eapply mapM_lookup in Hpc.
  - intros ms actors i m -> -> Hi. by eapply mapM_lookup in Hmesh.
Qed.

(** When [init_actors] returns, the sample has point clouds and meshes
    with their names, the h5ad directory of the sample is not empty and
    the path returned is its first entry; the names are the point-cloud
    names followed by the mesh names, with one actor per model and one
    entry per name. *)
Theorem init_actors_returns pl sample_id path anndata_path actors
    actor_ids tree :
  init_actors pl sample_id path = inr (anndata_path, actors, actor_ids, tree) →
  ∃ adata pc_models pc_ids mesh_models mesh_ids first rest,
    sample_dataset sample_id path
      = inr (adata, Some pc_models, Some pc_ids, Some mesh_models,
             Some mesh_ids)
    ∧ listdir (path_join path "h5ad") = inr (first :: rest)
    ∧ anndata_path = path_join (path_join path "h5ad") first
    ∧ actor_ids = pc_ids ++ mesh_ids
    ∧ length actors = length pc_models + length mesh_models
    ∧ tree = group_tree pc_ids 0 ++ group_tree mesh_ids (length pc_models).
Proof.
  unfold init_actors.
  intros ([[[[adata pcm] pids] mm] mids] & Hdata & Hrun)%bind_inr.
  apply bind_inr in Hrun as ([pc_actors mesh_actors] & Hgen & Hrun).
  apply bind_inr in Hrun as ([[acts ids] tr] & Htree & Hrun).
  apply bind_inr in Hrun as (names & Hls & Hrun).
  apply bind_inr in Hrun as (first & Hfirst & [= <- <- <- <-]).
  destruct names as [|name rest]; [done|]. injection Hfirst as ->.
  destruct (generate_actors_tree_returns _ _ _ _ _ Htree)
    as [[pa ->] [ma ->]].
  pose proof (generate_actors_per_model_lengths _ _ _ _ _ _ _ Hgen)
    as [Hlp Hlm].
  destruct pcm as [pms|]; [|done]. destruct mm as [mms|]; [|done].
  injection Hlp as Hlp. injection Hlm as Hlm.
  destruct pids as [pn|]; [|done].
  destruct mids as [mn|]; [|done].
  rewrite generate_actors_tree_lists in Htree.
  injection Htree as <- <- <-.
  exists adata, pms, pn, mms, mn, first, rest.
  repeat split; try done.
  - rewrite length_fmap, length_app. lia.
  - by rewrite Hlp.
Qed.

(** A sample without point clouds or without meshes: once the actors of
    the kind it has are made, [init_actors] raises a TypeError, whatever
    the h5ad directory holds. *)
Theorem init_actors_missing_kind pl sample_id path adata pc_models pc_ids
    mesh_models mesh_ids generated :
  sample_dataset sample_id path
    = inr (adata, pc_models, pc_ids, mesh_models, mesh_ids) →
  pc_models = None ∨ mesh_models = None →
  generate_actors pl pc_models mesh_models None None = inr generated →
  ∃ what, init_actors pl sample_id path = inl (TypeError what).
Proof.
  intros Hdata Hnone Hgen. unfold init_actors.
  rewrite Hdata. cbn [Py.bind]. rewrite Hgen. cbn [Py.bind].
  destruct generated as [pc_actors mesh_actors].
  pose proof (generate_actors_per_model_lengths _ _ _ _ _ _ _ Hgen)
    as [Hlp Hlm].
  assert (pc_actors = None ∨ mesh_actors = None) as Hnone'.
  { destruct Hnone as [-> | ->]; [left|right].
    - by destruct pc_actors.
    - by destruct mesh_actors. }
  destruct pc_actors as [pa|], mesh_actors as [ma|];
    [destruct Hnone'; discriminate| | |].
  - destruct pc_ids; by eexists.
  - destruct mesh_ids; by eexists.
  - by eexists.
Qed.

End viewer.

Lemma init_actors_returns_witness :
  ∃ adata pc_models pc_ids mesh_models mesh_ids first rest,
    sample_dataset (Viewer := sample_viewer) "drosophila_E7_9h"
      "assets/drosophila_E7_9h"
      = inr (adata, Some pc_models, Some pc_ids, Some mesh_models,
             Some mesh_ids)
    ∧ listdir (Viewer := sample_viewer)
        (path_join (Viewer := sample_viewer) "assets/drosophila_E7_9h" "h5ad")
      = inr (first :: rest)
    ∧ "assets/drosophila_E7_9h/h5ad/E7_9h_cellbin.h5ad"
      = path_join (Viewer := sample_viewer)
          (path_join (Viewer := sample_viewer) "assets/drosophila_E7_9h"
             "h5ad") first
    ∧ ["PC_CNS"; "PC_embryo"; "Mesh_embryo"] = pc_ids ++ mesh_ids
    ∧ length [Actor 10 true; Actor 11 false; Actor 20 true]
      = length pc_models + length mesh_models
    ∧ [TreeEntry "1" "0" true "PC_CNS"; TreeEntry "2" "1" false "PC_embryo";
       TreeEntry "3" "0" true "Mesh_embryo"]
      = group_tree pc_ids 0 ++ group_tree mesh_ids (length pc_models).
Proof.
  apply (init_actors_returns (H := sample_viewer) 0 "drosophila_E7_9h"
           "assets/drosophila_E7_9h").
  reflexivity.
Defined.

Lemma init_actors_missing_kind_witness :
  ∃ what,
    init_actors (H := sample_viewer) 0 "points_only" "assets/points_only"
    = inl (TypeError what).
Proof.
  eapply (init_actors_missing_kind (H := sample_viewer) 0 "points_only"
            "assets/points_only").
  - reflexivity.
  - by right.
  - reflexivity.
Defined.

Lemma generate_actors_per_model_witness :
  length <$> Some [Actor 10 true; Actor 11 true] = length <$> Some [10; 11]
  ∧ length <$> @None (list actor) = length <$> @None (list nat).
Proof.
  pose proof (generate_actors_per_model (H := sample_viewer) 0
                (Some [10; 11]) None None None
                (Some [Actor 10 true; Actor 11 true]) None eq_refl)
    as (H1 & H2 & _).
  exact (conj H1 H2).
Defined.

End PvActorsMore.

(** ** More on the asset manager *)

Module DatasetManagerMore.
Import Py PySpec DatasetManager DatasetManagerSpec.

Section manager.
Context `{Host}.

(** A path depends on the manager through its root alone. *)
Lemma _to_path_root (self other : LocalFileManager) file_path :
  _root other = _root self →
  _to_path other file_path = _to_path self file_path.
Proof. unfold _to_path. by intros ->. Qed.

(** A path that is a string is resolved as it is when absolute, and from
    the root otherwise. *)
Lemma _to_path_Some (self : LocalFileManager) (file_path : string) :
  _to_path self (Some file_path)
  = resolve_absolute (if is_absolute file_path then file_path
                      else joinpath (_root self) file_path).
Proof. unfold _to_path. by destruct (is_absolute file_path). Qed.

Lemma dir_url_Some (self : LocalFileManager) (key dir_path : string) :
  dir_url self (Some key) (Some dir_path)
  = match _to_path self (Some dir_path) with
    | inl e => (inl e, self)
    | inr p => (inr p, {| _root := _root self;
                          _assests := <[key := p]> (_assests self) |})
    end.
Proof. reflexivity. Qed.

(** [dir_url] reads no file: what it returns or raises is what resolving
    the path does. Without a directory path the key is the path and
    nothing is stored. With one, a path that is returned is stored under
    the key, the root and every other key are kept; a raise leaves the
    manager as it was. *)
Theorem dir_url_stores (self : LocalFileManager) (key : string) :
  dir_url self (Some key) None = (_to_path self (Some key), self)
  ∧ (∀ dir_path p,
       (dir_url self (Some key) (Some dir_path)).1 = inr p →
       _to_path self (Some dir_path) = inr p
       ∧ _root (dir_url self (Some key) (Some dir_path)).2 = _root self
       ∧ __getitem__ (dir_url self (Some key) (Some dir_path)).2 key = Some p
       ∧ ∀ k, k ≠ key →
           __getitem__ (dir_url self (Some key) (Some dir_path)).2 k
           = __getitem__ self k)
  ∧ (∀ dir_path e,
       (dir_url self (Some key) (Some dir_path)).1 = inl e →
       _to_path self (Some dir_path) = inl e
       ∧ (dir_url self (Some key) (Some dir_path)).2 = self).
Proof.
  split; [|split].
  - unfold dir_url. by destruct (_to_path self (Some key)).
  - intros dir_path p. rewrite dir_url_Some.
    destruct (_to_path self (Some dir_path)) as [e|q]; [done|].
    intros [= ->]. unfold __getitem__. cbn.
    repeat split; try done; [apply lookup_insert_eq|].
    intros k Hk. by apply lookup_insert_ne.
  - intros dir_path e. rewrite dir_url_Some.
    destruct (_to_path self (Some dir_path)) as [e0|q]; [|done].
    by intros [= ->].
Qed.

Lemma to_url_inl (file_path : string) e :
  to_url file_path = inl e → read_binary file_path = inl e.
Proof.
  unfold to_url, to_base64.
  destruct (read_binary file_path) as [e0|content]; cbn; [|done].
  by intros [= ->].
Qed.

(** A call of [file_url] that raises leaves the manager as it was. It
    raises a TypeError when there is neither key nor path, and otherwise
    what resolving the path raised or what reading the file raised. *)
Theorem file_url_raise_keeps (self : LocalFileManager)
    (key file_path : option string) e :
  (file_url self key file_path).1 = inl e →
  (file_url self key file_path).2 = self
  ∧ ((key = None ∧ file_path = None ∧ e = TypeError BadPathArgument)
     ∨ (∃ path, from_option Some key file_path = Some path
                ∧ resolve_absolute
                    (if is_absolute path then path
                     else joinpath (_root self) path) = inl e)
     ∨ (∃ p, _to_path self (from_option Some key file_path) = inr p
             ∧ read_binary p = inl e)).
Proof.
  intros Hraise. split.
  - revert Hraise. unfold file_url. destruct file_path as [fp|];
      by destruct (Py.bind _ _); [|destruct key].
  - rewrite file_url_result in Hraise.
    destruct (from_option Some key file_path) as [path|] eqn:Hpath.
    + rewrite _to_path_Some in *.
      destruct (resolve_absolute _) as [e0|p] eqn:Hres; cbn in Hraise.
      * injection Hraise as <-. right. left. by exists path.
      * right. right. exists p. split; [done|]. by apply to_url_inl.
    + cbn in Hraise. injection Hraise as <-. left.
      by destruct file_path, key.
Qed.

(** What [get_assets] holds: without keys, every stored key with its
    value; with keys, exactly the keys asked for, each with its stored
    value or None. *)
Theorem get_assets_holds (self : LocalFileManager) (keys : list string)
    (k : string) :
  get_assets self keys !! k
  = match keys with
    | [] => Some <$> _assests self !! k
    | _ :: _ =>
        if decide (k ∈ keys) then Some (_assests self !! k) else None
    end.
Proof.
  unfold get_assets. destruct keys as [|key keys].
  - rewrite bool_decide_eq_true_2 by done. unfold assets.
    by rewrite lookup_fmap.
  - rewrite bool_decide_eq_false_2 by done.
    rewrite get_assets_fold. by rewrite lookup_empty.
Qed.

(** Store, then look up: after a call of [file_url] that returned, the
    [[]] notation and [get_assets] give the URL back; the attribute
    notation gives it back when the key is not the name of an attribute
    the instance or its class already has, and never otherwise. *)
Theorem file_url_then_lookup (self after : LocalFileManager)
    (key file_path url : string) :
  file_url self (Some key) (Some file_path) = (inr url, after) →
  __getitem__ after key = Some url
  ∧ get_assets after [key] = {[ key := Some url ]}
  ∧ (regular_attribute key = false → getattr after key = FromGetattr (Some url))
  ∧ (regular_attribute key = true → ∀ v, getattr after key ≠ FromGetattr v).
Proof.
  unfold file_url. destruct (Py.bind _ _) as [e|data]; [done|].
  intros [= -> <-]. unfold __getitem__. cbn.
  split; [apply lookup_insert_eq|]. split.
  - unfold get_assets. cbn. by rewrite lookup_insert_eq, insert_empty.
  - unfold regular_attribute, getattr, __getattr__. cbn. split.
    + rewrite !orb_false_iff. intros ((((-> & ->) & ->) & ->) & ->).
      by rewrite lookup_insert_eq.
    + intros Hreg v.
      repeat (match goal with
              | |- context [if ?b then _ else _] =>
                  destruct b eqn:?; try done
              end).
Qed.

Lemma dir_url_statement_inr (self after : LocalFileManager)
    (key dir_path : string) :
  dir_url_statement self key dir_path = inr after →
  ∃ p, _to_path self (Some dir_path) = inr p
       ∧ after = {| _root := _root self;
                    _assests := <[key := p]> (_assests self) |}.
Proof.
  unfold dir_url_statement. rewrite dir_url_Some.
  destruct (_to_path self (Some dir_path)) as [e|p]; [done|].
  intros [= <-]. by exists p.
Qed.

(** The manager of the module, once the module is loaded: its root is the
    resolved directory of the file, and it holds exactly the three data
    sets, each under its name with the resolved path of its directory. *)
Theorem local_dataset_manager_holds (__file__ : string)
    (m : LocalFileManager) :
  local_dataset_manager __file__ = inr m →
  resolve_absolute
    (if is_file __file__ then path_parent __file__ else __file__)
    = inr (_root m)
  ∧ dom (_assests m)
    = {[ "drosophila_E7_9h"; "drosophila_E9_10h"; "drosophila_E16_17h" ]}
  ∧ ∀ name,
      name ∈ ["drosophila_E7_9h"; "drosophila_E9_10h"; "drosophila_E16_17h"] →
      ∃ p, _to_path m (Some ("./dataset/" +:+ name)) = inr p
           ∧ __getitem__ m name = Some p.
Proof.
  unfold local_dataset_manager, __init__.
  intros (m0 & Hinit & Hrun)%bind_inr.
  apply bind_inr in Hinit as (root & Hroot & [= <-]).
  apply bind_inr in Hrun as (m1 & (p1 & Hp1 & ->)%dir_url_statement_inr & Hrun).
  apply bind_inr in Hrun as (m2 & (p2 & Hp2 & ->)%dir_url_statement_inr & Hrun).
  apply dir_url_statement_inr in Hrun as (p3 & Hp3 & ->).
  cbn [_root _assests] in *.
  split; [done|]. split.
  - rewrite !dom_insert_L, dom_empty_L. set_solver.
  - intros name Hname. unfold __getitem__. cbn [_assests].
    repeat (apply elem_of_cons in Hname as [->|Hname]);
      [exists p1|exists p2|exists p3|by apply not_elem_of_nil in Hname];
      (split; [by erewrite _to_path_root|]).
    + by rewrite lookup_insert_ne, lookup_insert_ne, lookup_insert_eq.
    + by rewrite lookup_insert_ne, lookup_insert_eq.
    + by rewrite lookup_insert_eq.
Qed.

End manager.

Lemma file_url_raise_keeps_witness :
  (file_url (H := sample_host) sample_manager (Some "logo") (Some "loop")).2
  = sample_manager
  ∧ ((Some "logo" = None ∧ Some "loop" = None
      ∧ LibraryError "Symlink loop from '/srv/app/loop'"
        = TypeError BadPathArgument)
     ∨ (∃ path, from_option Some (Some "logo") (Some "loop") = Some path
                ∧ resolve_absolute (Host := sample_host)
                    (if is_absolute (Host := sample_host) path then path
                     else joinpath (Host := sample_host)
                            (_root sample_manager) path)
                  = inl (LibraryError "Symlink loop from '/srv/app/loop'"))
     ∨ (∃ p, _to_path (H := sample_host) sample_manager
               (from_option Some (Some "logo") (Some "loop")) = inr p
             ∧ read_binary (Host := sample_host) p
               = inl (LibraryError "Symlink loop from '/srv/app/loop'"))).
Proof.
  apply (file_url_raise_keeps (H := sample_host) sample_manager (Some "logo")
           (Some "loop") (LibraryError "Symlink loop from '/srv/app/loop'")).
  reflexivity.
Defined.

Lemma dir_url_stores_witness :
  _to_path (H := sample_host) sample_manager
    (Some "./dataset/drosophila_E7_9h")
  = inr "/srv/app/./dataset/drosophila_E7_9h"
  ∧ __getitem__
      (dir_url (H := sample_host) sample_manager (Some "drosophila_E7_9h")
         (Some "./dataset/drosophila_E7_9h")).2 "drosophila_E7_9h"
    = Some "/srv/app/./dataset/drosophila_E7_9h".
Proof.
  destruct (proj1 (proj2 (dir_url_stores (H := sample_host) sample_manager
                            "drosophila_E7_9h"))
              "./dataset/drosophila_E7_9h"
              "/srv/app/./dataset/drosophila_E7_9h" eq_refl)
    as (Hpath & _ & Hget & _).
  exact (conj Hpath Hget).
Defined.

Lemma file_url_then_lookup_witness :
  let self := sample_manager in
  let after := (file_url (H := sample_host) self (Some "assets")
                  (Some "hi.txt")).2 in
  __getitem__ after "assets" = Some "data:text/plain;base64,aGk="
  ∧ get_assets after ["assets"]
    = {[ "assets" := Some "data:text/plain;base64,aGk=" ]}
  ∧ (regular_attribute (H := sample_host) "assets" = false →
     getattr (H := sample_host) after "assets"
     = FromGetattr (Some "data:text/plain;base64,aGk="))
  ∧ (regular_attribute (H := sample_host) "assets" = true →
     ∀ v, getattr (H := sample_host) after "assets" ≠ FromGetattr v).
Proof.
  intros self after.
  apply (file_url_then_lookup (H := sample_host) self after "assets" "hi.txt"
           "data:text/plain;base64,aGk=").
  reflexivity.
Defined.

Lemma local_dataset_manager_holds_witness :
  ∃ m,
    local_dataset_manager (H := sample_host) "/srv/app/hi.txt" = inr m
    ∧ resolve_absolute (Host := sample_host)
        (if is_file (Host := sample_host) "/srv/app/hi.txt"
         then path_parent (Host := sample_host) "/srv/app/hi.txt"
         else "/srv/app/hi.txt")
      = inr (_root m)
    ∧ dom (_assests m)
      = {[ "drosophila_E7_9h"; "drosophila_E9_10h"; "drosophila_E16_17h" ]}
    ∧ ∀ name,
        name ∈ ["drosophila_E7_9h"; "drosophila_E9_10h";
                "drosophila_E16_17h"] →
        ∃ p, _to_path (H := sample_host) m (Some ("./dataset/" +:+ name))
             = inr p
             ∧ __getitem__ m name = Some p.
Proof.
  eexists. split; [reflexivity|].
  by apply (local_dataset_manager_holds (H := sample_host) "/srv/app/hi.txt").
Defined.

End DatasetManagerMore.

(** ** More on the reduced AnnData *)

Module AnndataPreprocessMore.
Import Py PySpec AnndataPreprocess AnndataPreprocessSpec.

Lemma to_sparse_entries m :
  entries (to_sparse m) = entries m
  ∧ format (to_sparse m) = match format m with Dense => CSR | f => f end.
Proof.
  unfold to_sparse, issparse, copy. by destruct (format m) eqn:E; cbn.
Qed.

Section preprocess.
Context `{Dynamo} `{Disk}.

(** With a log1p layer named, the call raises for the first thing that is
    missing, in this order: the file (OSError), the counts layer, the
    log1p layer, the coordinates (KeyError of the missing key), and last
    the place to write (OSError of the output path, nothing written);
    only when none is missing does it return. *)
Theorem anndata_preprocess_missing fs path output_path X_counts key
    spatial_key :
  match fs !! path with
  | None =>
      anndata_preprocess fs path output_path X_counts (Some key) spatial_key
      = inl (OSError path)
  | Some adata =>
      match layers adata !! X_counts, layers adata !! key,
            obsm adata !! spatial_key with
      | None, _, _ =>
          anndata_preprocess fs path output_path X_counts (Some key)
            spatial_key = inl (KeyError X_counts)
      | Some _, None, _ =>
          anndata_preprocess fs path output_path X_counts (Some key)
            spatial_key = inl (KeyError key)
      | Some _, Some _, None =>
          anndata_preprocess fs path output_path X_counts (Some key)
            spatial_key = inl (KeyError spatial_key)
      | Some _, Some _, Some _ =>
          if writable output_path
          then ∃ out fs',
                 anndata_preprocess fs path output_path X_counts (Some key)
                   spatial_key = inr (out, fs')
          else anndata_preprocess fs path output_path X_counts (Some key)
                 spatial_key = inl (OSError output_path)
      end
  end.
Proof.
  unfold anndata_preprocess, read_h5ad, write_h5ad, getitem.
  destruct (fs !! path) as [adata|]; [|done]. cbn.
  destruct (layers adata !! X_counts) as [c|]; [|done]. cbn.
  destruct (layers adata !! key) as [l|]; [|done]. cbn.
  destruct (obsm adata !! spatial_key) as [s|]; [|done]. cbn.
  destruct (writable output_path); [|done]. by eexists _, _.
Qed.

(** The values are kept. In every run that returns, [X] holds the cells
    of the counts layer, of the same shape, in the sparse format the layer
    had or in CSR when it was dense: what the normalisation computes never
    reaches [X]. With a log1p layer named, the same holds of the log1p
    layer, and the coordinates are the array of the input. *)
Theorem anndata_preprocess_keeps_values fs path output_path X_counts X_log1p
    spatial_key adata out fs' :
  fs !! path = Some adata →
  anndata_preprocess fs path output_path X_counts X_log1p spatial_key
    = inr (out, fs') →
  (∃ c x, layers adata !! X_counts = Some c ∧ X out = Some x
          ∧ entries x = entries c ∧ shape x = shape c
          ∧ format x = match format c with Dense => CSR | f => f end)
  ∧ match X_log1p with
    | Some key =>
        ∃ l l', layers adata !! key = Some l
                ∧ layers out !! "X_log1p" = Some l'
                ∧ entries l' = entries l ∧ shape l' = shape l
                ∧ format l' = match format l with Dense => CSR | f => f end
                ∧ obsm out !! "spatial" = obsm adata !! spatial_key
    | None => True
    end.
Proof.
  intros Hread Hrun.
  apply anndata_preprocess_inr in Hrun
    as (adata0 & counts_layer & mid & log1p & spatial_coords
        & Hread0 & Hc & Hmid & Hs & -> & _ & ->).
  rewrite Hread in Hread0. injection Hread0 as <-. cbn. split.
  - exists counts_layer, (to_sparse counts_layer).
    destruct (to_sparse_entries counts_layer) as [He Hf].
    by rewrite to_sparse_shape.
  - destruct X_log1p as [key|]; [|done].
    destruct Hmid as (-> & log_layer & Hl & ->).
    exists log_layer, (to_sparse log_layer).
    destruct (to_sparse_entries log_layer) as [He Hf].
    rewrite !lookup_insert_eq, to_sparse_shape. by rewrite Hs.
Qed.

(** A file that the call wrote has no layer but "X_log1p": running the
    call on it with any other name for the counts, the default "X_counts"
    among them, raises a KeyError. *)
Theorem anndata_preprocess_again fs path output_path X_counts X_log1p
    spatial_key out fs' output_path' X_counts' X_log1p' spatial_key' :
  anndata_preprocess fs path output_path X_counts X_log1p spatial_key
    = inr (out, fs') →
  X_counts' ≠ "X_log1p" →
  anndata_preprocess fs' output_path output_path' X_counts' X_log1p'
    spatial_key' = inl (KeyError X_counts').
Proof.
  intros Hrun Hne.
  apply anndata_preprocess_inr in Hrun
    as (adata0 & counts_layer & mid & log1p & spatial_coords
        & Hread0 & Hc & Hmid & Hs & -> & _ & ->).
  unfold anndata_preprocess at 1, read_h5ad.
  rewrite lookup_insert_eq. cbn [Py.bind ret]. unfold getitem at 1. cbn.
  by rewrite lookup_insert_ne, lookup_empty.
Qed.

End preprocess.

Lemma anndata_preprocess_keeps_values_witness :
  ∃ out fs',
    anndata_preprocess (H := sample_dynamo) (H0 := sample_disk) sample_fs
      "E7_9h_cellbin.h5ad" "E7_9h_cellbin_new.h5ad" "X_counts"
      (Some "X_log1p") "3d_align_spatial"
    = inr (out, fs')
    ∧ (∃ c x, layers sample_adata !! "X_counts" = Some c ∧ X out = Some x
              ∧ entries x = entries c ∧ shape x = shape c
              ∧ format x = match format c with Dense => CSR | f => f end)
    ∧ ∃ l l', layers sample_adata !! "X_log1p" = Some l
              ∧ layers out !! "X_log1p" = Some l'
              ∧ entries l' = entries l ∧ shape l' = shape l
              ∧ format l' = match format l with Dense => CSR | f => f end
              ∧ obsm out !! "spatial"
                = obsm sample_adata !! "3d_align_spatial".
Proof.
  eexists _, _. split; [reflexivity|].
  eapply (anndata_preprocess_keeps_values (H := sample_dynamo)
            (H0 := sample_disk) sample_fs "E7_9h_cellbin.h5ad" "E7_9h_cellbin_new.h5ad" "X_counts"
            (Some "X_log1p") "3d_align_spatial" sample_adata);
    reflexivity.
Defined.

Lemma anndata_preprocess_again_witness :
  ∃ out fs',
    anndata_preprocess (H := sample_dynamo) (H0 := sample_disk) sample_fs
      "E7_9h_cellbin.h5ad" "E7_9h_cellbin_new.h5ad" "X_counts"
      (Some "X_log1p") "3d_align_spatial"
    = inr (out, fs')
    ∧ anndata_preprocess (H := sample_dynamo) (H0 := sample_disk) fs'
        "E7_9h_cellbin_new.h5ad"
        "E7_9h_cellbin_new2.h5ad" "X_counts" (Some "X_log1p")
        "3d_align_spatial"
      = inl (KeyError "X_counts").
Proof.
  eexists _, _. split; [reflexivity|].
  eapply (anndata_preprocess_again (H := sample_dynamo)
            (H0 := sample_disk) sample_fs "E7_9h_cellbin.h5ad" "E7_9h_cellbin_new.h5ad" "X_counts"
            (Some "X_log1p") "3d_align_spatial");
    [reflexivity|done].
Defined.

End AnndataPreprocessMore.

(** ** More on the stages and their times *)

Module PvMorphogenesisMore.
Import Py PySpec PvMorphogenesis PvMorphogenesisSpec.

(** What [flats] holds: in ascending order, the value 0 and the fate
    times of all cells rounded towards zero, as far as they are at most
    3000. *)
Theorem flats_of_holds (fate : list (Z * list R)) :
  Sorted Z.le (flats_of fate)
  ∧ ∀ x,
      x ∈ flats_of fate ↔
      (x ≤ 3000)%Z
      ∧ (x = 0%Z ∨ ∃ key ts t, (key, ts) ∈ fate ∧ t ∈ ts ∧ py_int t = x).
Proof.
  split.
  - unfold flats_of. apply (Sorted_merge_sort Z.le).
  - intros x. unfold flats_of, np_unique.
    rewrite merge_sort_Permutation, list_elem_of_filter, elem_of_cons.
    rewrite merge_sort_Permutation, elem_of_remove_dups, list_elem_of_fmap.
    apply and_iff_compat_l, or_iff_compat_l. split.
    + intros (t & -> & Ht). apply list_elem_of_In, in_concat in Ht
        as (ts & Hts%list_elem_of_In & Ht%list_elem_of_In).
      apply list_elem_of_fmap in Hts as ([key ts'] & -> & Hin).
      rewrite merge_sort_Permutation in Hin. by exists key, ts', t.
    + intros (key & ts & t & Hin & Ht & <-). exists t. split; [done|].
      apply list_elem_of_In, in_concat. exists ts.
      split; apply list_elem_of_In; [|done].
      apply list_elem_of_fmap. exists (key, ts). split; [done|].
      by rewrite merge_sort_Permutation.
Qed.

Section stages.
Context `{Libraries}.

(** Each pass starts from the positions of the pass before it. *)
Lemma stage_loop_chain f time_vec steps pts acc out :
  stage_loop f time_vec steps pts acc = inr out →
  ∀ j i, steps !! j = Some i →
    ∃ dt prev next,
      time_vec !! i = Some dt
      ∧ match j with
        | 0 => prev = pts
        | S j' => out !! (length acc + j') = Some (Positions prev)
        end
      ∧ out !! (length acc + j) = Some (Positions next)
      ∧ mapM (λ cur_pts, displace_1 f cur_pts dt) prev = inr next.
Proof.
  revert pts acc. induction steps as [|i0 steps IH]; intros pts acc Hrun j i Hj;
    [done|].
  cbn in Hrun. destruct (time_vec !! i0) as [dt0|] eqn:Hdt0; [|done].
  cbn in Hrun.
  destruct (mapM _ pts) as [e|pts'] eqn:Hpts; [done|]. cbn in Hrun.
  pose proof (stage_loop_appends _ _ _ _ _ _ Hrun) as (new & Hout & _).
  assert (out !! length acc = Some (Positions pts')) as Hat.
  { rewrite Hout, <- app_assoc. rewrite lookup_app_r by lia.
    by replace (length acc - length acc) with 0 by lia. }
  destruct j as [|j]; cbn in Hj.
  - injection Hj as <-. exists dt0, pts, pts'.
    by rewrite Nat.add_0_r.
  - destruct (IH _ _ Hrun j i Hj) as (dt & prev & next & Hdt & Hprev & Hnext & Hm).
    rewrite length_app in Hprev, Hnext. cbn in Hprev, Hnext.
    exists dt, prev, next. split; [done|]. split; [|split; [|done]].
    + destruct j as [|j'].
      * subst prev. by rewrite Nat.add_0_r.
      * by replace (length acc + S j') with (length acc + 1 + j') by lia.
    + by replace (length acc + S j) with (length acc + 1 + j) by lia.
Qed.

(** The stages follow one another: snapshot [i + 1] of [stages_X] is the
    displacement, by the [i]-th time value, of the positions of snapshot
    [i] (of the initial states for the first), cell by cell. *)
Theorem morphogenesis_stages_chain args m1 m2 m3 stages_X :
  morphogenesis args = inr (m1, m2, m3, stages_X) →
  ∃ st an time_vec func,
    import_spateo = inr st
    ∧ tdr_analysis st args = inr an
    ∧ time_vec_of (fate_t an) = inr time_vec
    ∧ vf_from_adata an = inr func
    ∧ ∀ i, i < 100 →
        ∃ dt prev next,
          time_vec !! i = Some dt
          ∧ match i with
            | 0 => prev = init_states an
            | S _ => stages_X !! i = Some (Positions prev)
            end
          ∧ stages_X !! S i = Some (Positions next)
          ∧ mapM (λ cur_pts, displace_1 (λ x _, func x) cur_pts dt) prev
            = inr next.
Proof.
  intros (st & an & time_vec & func & Himp & Han & Htv & Hvf & Hloop)
    %morphogenesis_inr.
  exists st, an, time_vec, func. do 4 (split; [done|]).
  intros i Hi.
  destruct (stage_loop_chain _ _ _ _ _ _ Hloop i i)
    as (dt & prev & next & Hdt & Hprev & Hnext & Hm);
    [by apply lookup_seq_lt|].
  exists dt, prev, next. cbn in Hprev, Hnext. by destruct i.
Qed.

Lemma stage_loop_no_cells f time_vec steps acc :
  (∀ i, i ∈ steps → is_Some (time_vec !! i)) →
  stage_loop f time_vec steps [] acc
  = inr (acc ++ replicate (length steps) (Positions [])).
Proof.
  revert acc. induction steps as [|i steps IH]; intros acc Hsteps; cbn.
  - by rewrite app_nil_r.
  - destruct (Hsteps i) as [dt ->]; [left|]. cbn.
    rewrite IH by (intros j Hj; apply Hsteps; by right).
    by rewrite <- app_assoc.
Qed.

(** Without cells the integrator is never called: when the analysis finds
    no initial state, the run returns the observation names followed by
    100 empty snapshots, whatever [odeint] would do. *)
Theorem morphogenesis_no_cells args st an func :
  import_spateo = inr st →
  tdr_analysis st args = inr an →
  vf_from_adata an = inr func →
  init_states an = [] →
  morphogenesis args
  = inr (analysed_pc_model an, pc_vectors an, trajectory_model an,
         ObsIndex (obs_index an) :: replicate 100 (Positions [])).
Proof.
  intros Himp Han Hvf Hinit. unfold morphogenesis. rewrite Himp, Han.
  cbn [Py.bind]. unfold cell_stages.
  destruct (time_vec_of_spec (fate_t an)) as (m & _ & _ & ->).
  cbn [Py.bind]. rewrite Hvf. cbn [Py.bind]. rewrite Hinit.
  rewrite stage_loop_no_cells; [by rewrite length_seq|].
  intros i Hi%elem_of_seq. apply lookup_lt_is_Some.
  rewrite length_fmap, length_seq. lia.
Qed.

(** An exception of the integrator ends the run: when [odeint] raises for
    the first cell in the first pass (whose time value is 0), the call
    raises the same exception and returns no stage. *)
Theorem morphogenesis_odeint_raises args st an func x rest e :
  import_spateo = inr st →
  tdr_analysis st args = inr an →
  vf_from_adata an = inr func →
  init_states an = x :: rest →
  odeint (λ x _, func x) x [0%R; 0%R] = inl e →
  morphogenesis args = inl e.
Proof.
  intros Himp Han Hvf Hinit Hode. unfold morphogenesis. rewrite Himp, Han.
  cbn [Py.bind]. unfold cell_stages.
  destruct (time_vec_of_spec (fate_t an)) as (m & _ & _ & ->).
  cbn [Py.bind]. rewrite Hvf. cbn [Py.bind]. rewrite Hinit.
  assert ((time_at m <$> seq 0 100) !! 0 = Some 0%R) as Hdt.
  { change ((time_at m <$> seq 0 100) !! 0) with (Some (time_at m 0)).
    by rewrite time_at_0. }
  set (time_vec := time_at m <$> seq 0 100) in *.
  change (seq 0 100) with (0 :: seq 1 99). cbn [stage_loop].
  rewrite Hdt. cbn [Py.bind ret mapM]. unfold displace_1 at 1.
  by rewrite Hode.
Qed.

End stages.

Lemma morphogenesis_stages_chain_witness :
  ∃ stages_X st an time_vec func,
    morphogenesis (H := sample_libraries) sample_arguments
      = inr (sample_model, sample_model, sample_model, stages_X)
    ∧ import_spateo (H := sample_libraries) = inr st
    ∧ tdr_analysis st sample_arguments = inr an
    ∧ time_vec_of (fate_t an) = inr time_vec
    ∧ vf_from_adata (Libraries := sample_libraries) an = inr func
    ∧ ∀ i, i < 100 →
        ∃ dt prev next,
          time_vec !! i = Some dt
          ∧ match i with
            | 0 => prev = init_states an
            | S _ => stages_X !! i = Some (Positions prev)
            end
          ∧ stages_X !! S i = Some (Positions next)
          ∧ mapM (λ cur_pts,
                    displace_1 (H := sample_libraries) (λ x _, func x)
                      cur_pts dt) prev
            = inr next.
Proof.
  destruct (morphogenesis_returns (H := sample_libraries) sample_arguments
              _ _ _ eq_refl eq_refl eq_refl sample_odeint_rows)
    as [stages_X Hrun].
  destruct (morphogenesis_stages_chain (H := sample_libraries) _ _ _ _ _ Hrun)
    as (st & an & time_vec & func & Hconcl).
  exists stages_X, st, an, time_vec, func. split; [exact Hrun|].
  exact Hconcl.
Defined.

Lemma morphogenesis_no_cells_witness :
  morphogenesis (H := libraries_no_cells) sample_arguments
  = inr (sample_model, sample_model, sample_model,
         ObsIndex [] :: replicate 100 (Positions [])).
Proof.
  apply (morphogenesis_no_cells (H := libraries_no_cells) sample_arguments
           {| tdr_analysis := λ _, inr analysed_no_cells |}
           analysed_no_cells (λ _, [1; 0; 0]%R));
    reflexivity.
Defined.

Lemma morphogenesis_odeint_raises_witness :
  morphogenesis (H := libraries_failing_odeint) sample_arguments
  = inl (LibraryError "odeint failed").
Proof.
  apply (morphogenesis_odeint_raises (H := libraries_failing_odeint)
           sample_arguments
           {| tdr_analysis := λ _, inr sample_analysed |}
           sample_analysed (λ _, [1; 0; 0]%R)
           [0; 0; 0]%R [[1; 2; 3]%R]);
    reflexivity.
Defined.

End PvMorphogenesisMore.
